(** * qv-rag: the engine, the storage wrapper and the splitter wrapper

    A shallow embedding of [qv_rag/engine.py], [qv_rag/storage.py] and the
    parts of [qv_rag/text_splitter.py] the engine calls.

    The three Python modules are glue over collaborators that live outside
    the repository: the vector-store collection, the text splitters, pathlib
    and the file system.  The collaborators are interfaces here (type
    classes); everything the repository's own code does between two
    collaborator calls is a definition below.  A splitter is a function of
    its text: the engine splits every text twice, once for the chunks and
    once to count them, and relies on both passes agreeing. *)

From Stdlib Require Import ZArith SpecFloat Ascii String.
From stdpp Require Import base option list strings pretty gmap.

Local Open Scope string_scope.
Local Open Scope nat_scope.
Local Open Scope list_scope.
Local Open Scope stdpp_scope.

(** ** Python values *)

(** Scalars a metadata mapping holds ([Dict[str, Any]], restricted to what
    the vector store accepts as a value). *)
Inductive atom : Type :=
  | ANone
  | ABool (b : bool)
  | AInt (z : Z)
  | AFloat (x : spec_float)
  | AStr (s : string).

(** A metadata mapping, by value. *)
Abbreviation dict := (gmap string atom).

(** A value of a mapping the storage layer returns to its caller. *)
Inductive pyval : Type :=
  | VAtom (a : atom)
  | VDict (d : dict).

(** The mappings [query] and [get_collection_info] build. *)
Abbreviation result := (gmap string pyval).

(** The document objects the header-aware splitters return. *)
Record Document : Type := mkDocument {
  page_content : string;
  doc_metadata : dict
}.

(** What the engine hands to storage as one element of [documents]:
    [split_text] yields [str], the other strategies yield documents. *)
Inductive chunk : Type :=
  | TextChunk (s : string)
  | DocChunk (d : Document).

(** References to dict objects: a caller's metadata mapping is an object
    that [add_file] writes to, so mappings are passed by reference. *)
Abbreviation loc := nat.

(** ** Exceptions *)

Inductive exn : Type :=
  | ValueError (msg : string)
  | IndexError (msg : string)
  | UnboundLocalError (msg : string)
  (** any further subclass of [Exception], raised by a collaborator *)
  | LibraryError (cls msg : string)
  (** [BaseException] outside [Exception]: [KeyboardInterrupt],
      [SystemExit], [GeneratorExit] *)
  | SystemExiting (cls msg : string).

(** [isinstance(e, Exception)], what [except Exception] tests. *)
Definition is_Exception (e : exn) : bool :=
  match e with
  | SystemExiting _ _ => false
  | _ => true
  end.

(** [str(e)], as the f-strings of the handlers format it. *)
Definition exn_str (e : exn) : string :=
  match e with
  | ValueError msg | IndexError msg | UnboundLocalError msg => msg
  | LibraryError _ msg | SystemExiting _ msg => msg
  end.

(** The result of running a piece of Python: a value or a raised exception. *)
Inductive outcome (A : Type) : Type :=
  | Returns (a : A)
  | Raises (e : exn).
Arguments Returns {A} a.
Arguments Raises {A} e.

Global Instance outcome_ret : MRet outcome := λ A a, Returns a.
Global Instance outcome_bind : MBind outcome := λ A B f m,
  match m with
  | Returns a => f a
  | Raises e => Raises e
  end.
Global Instance outcome_fmap : FMap outcome := λ A B f m,
  match m with
  | Returns a => Returns (f a)
  | Raises e => Raises e
  end.

(** [l[i]] for [0 <= i]. *)
Definition index {A : Type} (l : list A) (i : nat) : outcome A :=
  match l !! i with
  | Some x => Returns x
  | None => Raises (IndexError "list index out of range")
  end.

(** [s[1:]] *)
Definition str_tail (s : string) : string :=
  match s with
  | EmptyString => EmptyString
  | String _ rest => rest
  end.

(** ** The vector store's answer to a query *)

(** [chromadb]'s [QueryResult]: each field is absent, [None], or one row per
    query text.  An absent key and a [None] value take the same branch
    everywhere below ([in], [.get] and truthiness), so both are [None]. *)
Record QueryResult : Type := mkQueryResult {
  documents : option (list (list string));
  metadatas : option (list (list dict));
  distances : option (list (list spec_float))
}.

(** Truthiness of an optional list. *)
Definition truthy {A : Type} (o : option (list A)) : bool :=
  match o with
  | Some (_ :: _) => true
  | _ => false
  end.

(** ** Collaborators *)

(** The calls the storage wrapper makes on [self.collection], with their
    arguments by value as the store receives them. *)
Inductive Call : Type :=
  | CallAdd (docs : list chunk) (metas : list dict) (ids : list string)
  | CallQuery (query_texts : list string) (n_results : Z)
              (where_ where_document : option dict)
  | CallName
  | CallCount.

(** The collection object of the vector store, over its own state [Coll]. *)
Class VectorStore (Coll : Type) : Type := {
  coll_add : Coll → list chunk → list dict → list string → option exn * Coll;
  coll_query : Coll → list string → Z → option dict → option dict →
               outcome (option QueryResult);
  coll_name : Coll → outcome string;
  coll_count : Coll → outcome Z
}.

(** The configured splitters of [langchain_text_splitters], as
    [TextSplitter.__init__] builds them. *)
Class Splitters : Type := {
  recursive_split_text : string → outcome (list string);
  markdown_split_text : string → outcome (list Document);
  html_semantic_split_text : string → outcome (list Document);
  json_create_documents : list string → bool → outcome (list Document)
}.

(** pathlib, [str.lower] and [open(...).read()]. *)
Class Runtime : Type := {
  path_str : string → string;       (* str(Path(p)) *)
  path_suffix : string → string;    (* Path(p).suffix *)
  str_lower : string → string;      (* s.lower() *)
  read_text : string → outcome string
}.

(** ** The world a call runs in *)

Section World.
Context {Coll : Type}.

Record World : Type := mkWorld {
  heap : gmap loc dict;       (* the dict objects *)
  coll : Coll;                (* the collection *)
  calls : list Call;          (* calls made on the collection, oldest first *)
  stdout : list string        (* lines printed *)
}.

(** A computation: runs in a world, returns or raises, leaves a world. *)
Definition M (A : Type) : Type := World → outcome A * World.

Definition ret {A : Type} (a : A) : M A := λ w, (Returns a, w).

Definition bind {A B : Type} (m : M A) (k : A → M B) : M B := λ w,
  match m w with
  | (Returns a, w') => k a w'
  | (Raises e, w') => (Raises e, w')
  end.

Definition raise {A : Type} (e : exn) : M A := λ w, (Raises e, w).

(** A collaborator call that does not touch the world. *)
Definition lift {A : Type} (o : outcome A) : M A := λ w, (o, w).

(** [try: body / except Exception as e: handler e] *)
Definition try_except {A : Type} (body : M A) (handler : exn → M A) : M A :=
  λ w,
  match body w with
  | (Returns a, w') => (Returns a, w')
  | (Raises e, w') =>
      if is_Exception e then handler e w' else (Raises e, w')
  end.

(** [print(line)] *)
Definition print (line : string) : M unit := λ w,
  (Returns tt,
   mkWorld (heap w) (coll w) (calls w) (stdout w ++ [line])).

(** A new dict object holding [d]. *)
Definition alloc (d : dict) : M loc := λ w,
  let l := fresh (dom (heap w)) in
  (Returns l, mkWorld (<[l := d]> (heap w)) (coll w) (calls w) (stdout w)).

(** [obj[key] = value] on the dict object at [l]. *)
Definition setitem (l : loc) (key : string) (value : atom) : M unit := λ w,
  (Returns tt,
   mkWorld (<[l := <[key := value]> (heap w !!! l)]> (heap w))
           (coll w) (calls w) (stdout w)).

(** [[{} for _ in range(n)]] *)
Fixpoint alloc_empty (n : nat) : M (list loc) :=
  match n with
  | O => ret []
  | S n' => bind (alloc ∅) (λ l, bind (alloc_empty n') (λ ls, ret (l :: ls)))
  end.
End World.

Arguments World : clear implicits.
Arguments M : clear implicits.

Declare Scope py_scope.
Delimit Scope py_scope with py.
Notation "'let*' x ':=' m 'in' k" := (bind m (λ x, k))
  (at level 10, x binder, m at level 100, k at level 200) : py_scope.
Notation "m ';;' k" := (bind m (λ _, k))
  (at level 100, k at level 200, right associativity) : py_scope.
Local Open Scope py_scope.

(** ** storage.py: [ChromaStorage] *)

Module ChromaStorage.
Section Storage.
Context {Coll : Type} `{!VectorStore Coll}.

(** [self.collection.add(documents=..., metadatas=..., ids=...)]: the
    store receives the mappings the references denote at the call. *)
Definition collection_add (docs : list chunk) (metas : list loc)
    (ids : list string) : M Coll unit := λ w,
  let metas_v := (λ l, heap w !!! l) <$> metas in
  let '(err, c) := coll_add (coll w) docs metas_v ids in
  (match err with
   | None => Returns tt
   | Some e => Raises e
   end,
   mkWorld (heap w) c (calls w ++ [CallAdd docs metas_v ids]) (stdout w)).

(** [self.collection.query(query_texts=..., n_results=..., where=...,
    where_document=...)] *)
Definition collection_query (query_texts : list string) (n_results : Z)
    (where_ where_document : option dict) : M Coll (option QueryResult) :=
  λ w,
  (coll_query (coll w) query_texts n_results where_ where_document,
   mkWorld (heap w) (coll w)
           (calls w ++ [CallQuery query_texts n_results where_ where_document])
           (stdout w)).

(** [self.collection.name] *)
Definition collection_name : M Coll string := λ w,
  (coll_name (coll w),
   mkWorld (heap w) (coll w) (calls w ++ [CallName]) (stdout w)).

(** [self.collection.count()] *)
Definition collection_count : M Coll Z := λ w,
  (coll_count (coll w),
   mkWorld (heap w) (coll w) (calls w ++ [CallCount]) (stdout w)).

(** [[f"doc{i}" for i in range(n)]] *)
Definition generated_ids (n : nat) : list string :=
  (λ i : nat, "doc" +:+ pretty i) <$> seq 0 n.

(** [ChromaStorage.add_texts] *)
Definition add_texts (texts : list chunk)
    (metadatas : option (list loc)) (ids : option (list string))
    : M Coll unit :=
  match texts with
  | [] => ret tt
  | _ :: _ =>
      let ids :=
        match ids with
        | None => generated_ids (length texts)
        | Some ids => ids
        end in
      let* metadatas :=
        match metadatas with
        | None => alloc_empty (length texts)
        | Some ms =>
            if bool_decide (length ms ≠ length texts)
            then let* pad := alloc_empty (length texts - length ms) in
                 ret (ms ++ pad)
            else ret ms
        end in
      collection_add texts metadatas ids
  end.

(** One formatted match: the dict display of [query]'s loop body, its
    three values evaluated in source order. *)
Definition format_match (results : QueryResult) (row : list string)
    (i : nat) : outcome result :=
  text ← index row i;
  metadata ←
    (if truthy (metadatas results)
     then ms ← index (default [] (metadatas results)) 0;
          VDict <$> index ms i
     else Returns (VDict ∅));
  distance ←
    (if truthy (distances results)
     then ds ← index (default [] (distances results)) 0;
          (λ x, VAtom (AFloat x)) <$> index ds i
     else Returns (VAtom ANone));
  Returns (<["distance" := distance]>
           (<["metadata" := metadata]>
            (<["text" := VAtom (AStr text)]> ∅))).

(** [for i in range(len(row)): formatted_results.append(...)], from
    index [i] on, [acc] being [formatted_results] so far. *)
Fixpoint format_from (results : QueryResult) (row : list string)
    (i n : nat) (acc : list result) : outcome (list result) :=
  match n with
  | O => Returns acc
  | S n' =>
      r ← format_match results row i;
      format_from results row (S i) n' (acc ++ [r])
  end.

(** The body of [query] after the store has answered. *)
Definition format_results (results : option QueryResult)
    : outcome (list result) :=
  match results with
  | Some r =>
      if truthy (documents r)
      then row ← index (default [] (documents r)) 0;
           format_from r row 0 (length row) []
      else Returns []
  | None => Returns []
  end.

(** [ChromaStorage.query] *)
Definition query (query_text : string) (top_k : Z)
    (where_ where_document : option dict) : M Coll (list result) :=
  try_except
    (let* results :=
       collection_query [query_text] top_k where_ where_document in
     lift (format_results results))
    (λ e, print ("Error querying collection: " +:+ exn_str e);;
          ret []).

(** [ChromaStorage.get_collection_info] *)
Definition get_collection_info : M Coll result :=
  try_except
    (let* name := collection_name in
     let* count := collection_count in
     ret (<["count" := VAtom (AInt count)]>
          (<["name" := VAtom (AStr name)]> ∅)))
    (λ e, print ("Error getting collection info: " +:+ exn_str e);;
          ret (<["count" := VAtom (AInt 0)]>
               (<["name" := VAtom (AStr "unknown")]> ∅))).
End Storage.
End ChromaStorage.

(** ** text_splitter.py: the [TextSplitter] methods the engine calls *)

Module TextSplitter.
Section Methods.
Context `{!Splitters}.

(** [TextSplitter.split_text] *)
Definition split_text (text : string) : outcome (list chunk) :=
  (λ cs : list string, TextChunk <$> cs) <$> recursive_split_text text.

(** [for text in texts: chunks.extend(f(text))], [acc] being [chunks]. *)
Fixpoint extend_each (f : string → outcome (list chunk))
    (texts : list string) (acc : list chunk) : outcome (list chunk) :=
  match texts with
  | [] => Returns acc
  | text :: rest =>
      cs ← f text;
      extend_each f rest (acc ++ cs)
  end.

(** [TextSplitter.split_texts] *)
Definition split_texts (texts : list string) : outcome (list chunk) :=
  extend_each split_text texts [].

(** [TextSplitter.split_markdown] *)
Definition split_markdown (markdown_text : string) : outcome (list chunk) :=
  (λ ds : list Document, DocChunk <$> ds) <$> markdown_split_text markdown_text.

(** [TextSplitter.split_json]; both arms of its conditional build
    [[json_data]]. *)
Definition split_json (json_data : string) (convert_lists : bool)
    : outcome (list chunk) :=
  (λ ds : list Document, DocChunk <$> ds)
    <$> json_create_documents [json_data] convert_lists.

(** [TextSplitter.split_html_semantic] *)
Definition split_html_semantic (html_text : string) : outcome (list chunk) :=
  (λ ds : list Document, DocChunk <$> ds)
    <$> html_semantic_split_text html_text.
End Methods.
End TextSplitter.
Import TextSplitter.

(** ** engine.py: [RAGEngine] *)

Module RAGEngine.
Import ChromaStorage.
Section Engine.
Context {Coll : Type} `{!VectorStore Coll, !Splitters, !Runtime}.

(** The first [if]/[elif] chain of [add_texts]: all chunks of all texts. *)
Definition split_all (split_type : string) (texts : list string)
    : outcome (list chunk) :=
  if decide (split_type = "text") then split_texts texts
  else if decide (split_type = "markdown")
  then extend_each split_markdown texts []
  else if decide (split_type = "html")
  then extend_each split_html_semantic texts []
  else if decide (split_type = "json")
  then extend_each (λ text, split_json text false) texts []
  else Raises (ValueError ("Unsupported split_type: " +:+ split_type)).

(** The second chain, inside the replication loop.  It has no [else]:
    with another tag [text_chunks] would be unbound at its first use. *)
Definition split_one (split_type : string) (text : string)
    : outcome (list chunk) :=
  if decide (split_type = "text") then split_text text
  else if decide (split_type = "markdown") then split_markdown text
  else if decide (split_type = "html") then split_html_semantic text
  else if decide (split_type = "json") then split_json text false
  else Raises (UnboundLocalError
    "cannot access local variable 'text_chunks' where it is not associated with a value").

(** [for chunk in text_chunks: chunk_metadatas.append(metadatas[i])] *)
Fixpoint append_each (metadatas : list loc) (i : nat)
    (text_chunks : list chunk) (acc : list loc) : outcome (list loc) :=
  match text_chunks with
  | [] => Returns acc
  | _ :: rest =>
      m ← index metadatas i;
      append_each metadatas i rest (acc ++ [m])
  end.

(** [for i, text in enumerate(texts): ...], from index [i] on. *)
Fixpoint replicate_metadata (split_type : string) (metadatas : list loc)
    (i : nat) (texts : list string) (acc : list loc)
    : outcome (list loc) :=
  match texts with
  | [] => Returns acc
  | text :: rest =>
      text_chunks ← split_one split_type text;
      acc' ← append_each metadatas i text_chunks acc;
      replicate_metadata split_type metadatas (S i) rest acc'
  end.

(** [RAGEngine.add_texts] *)
Definition add_texts (texts : list string) (metadatas : option (list loc))
    (split_type : string) : M Coll unit :=
  match texts with
  | [] => ret tt
  | _ :: _ =>
      let* chunks := lift (split_all split_type texts) in
      let* chunk_metadatas :=
        (if truthy metadatas
         then lift (Some <$> replicate_metadata split_type
                               (default [] metadatas) 0 texts [])
         else ret None) in
      ChromaStorage.add_texts chunks chunk_metadatas None
  end.

(** [split_type_map] of [add_file] *)
Definition split_type_map : gmap string string :=
  <["json" := "json"]>
  (<["htm" := "html"]>
   (<["html" := "html"]>
    (<["md" := "markdown"]>
     (<["txt" := "text"]> ∅)))).

(** [file_path.suffix.lower()[1:]] unless a type is given. *)
Definition detect_file_type (file_path : string) (file_type : option string)
    : string :=
  match file_type with
  | None => str_tail (str_lower (path_suffix file_path))
  | Some t => t
  end.

(** [split_type_map.get(file_type, "text")] *)
Definition split_type_of (file_type : string) : string :=
  default "text" (split_type_map !! file_type).

(** [RAGEngine.add_file] *)
Definition add_file (file_path : string) (metadata : option loc)
    (file_type : option string) : M Coll unit :=
  let file_type := detect_file_type file_path file_type in
  let split_type := split_type_of file_type in
  let* metadata :=
    match metadata with
    | None => alloc ∅
    | Some l => ret l
    end in
  setitem metadata "source" (AStr (path_str file_path));;
  setitem metadata "file_type" (AStr file_type);;
  let* text := lift (read_text file_path) in
  add_texts [text] (Some [metadata]) split_type.

(** [RAGEngine.query] *)
Definition query (query_text : string) (top_k : Z)
    (where_ where_document : option dict) : M Coll (list result) :=
  ChromaStorage.query query_text top_k where_ where_document.

End Engine.
End RAGEngine.
Import ChromaStorage RAGEngine.

(** ** The specification's side: tags, strategies, expected values *)

(** The split-type tags [RAGEngine.add_texts] accepts. *)
Definition split_types : list string := ["text"; "markdown"; "html"; "json"].

(** The splitting strategies of the specification. *)
Inductive strategy : Type := Plain | Markdown | Html | Json.

(** The specification's extension table: txt to plain, md to markdown,
    html and htm to html, json to json, anything else to plain. *)
Definition strategy_of_extension (ext : string) : strategy :=
  if decide (ext = "txt") then Plain
  else if decide (ext = "md") then Markdown
  else if decide (ext = "html") then Html
  else if decide (ext = "htm") then Html
  else if decide (ext = "json") then Json
  else Plain.

(** The tag of a strategy. *)
Definition strategy_tag (s : strategy) : string :=
  match s with
  | Plain => "text"
  | Markdown => "markdown"
  | Html => "html"
  | Json => "json"
  end.

(** What a strategy does to one document. *)
Definition run_strategy `{!Splitters} (s : strategy) (text : string)
    : outcome (list chunk) :=
  match s with
  | Plain => split_text text
  | Markdown => split_markdown text
  | Html => split_html_semantic text
  | Json => split_json text false
  end.

(** [k_i] copies of the [i]-th metadata for the [k_i] chunks of the [i]-th
    document, in document order. *)
Definition replicated {A : Type} (css : list (list chunk)) (ms : list A)
    : list A :=
  concat (zip_with (λ cs m, replicate (length cs) m) css ms).


(** The first row of an optional table, as the formatting loop reads it:
    nothing when the field is falsy. *)
Definition first_row {A : Type} (o : option (list (list A))) : option (list A) :=
  match o with
  | Some (row :: _) => Some row
  | _ => None
  end.

(** The mapping [add_file] leaves in the metadata object. *)
Definition file_metadata `{!Runtime} (file_path : string) (file_type : string)
    (supplied : dict) : dict :=
  <["file_type" := AStr file_type]>
    (<["source" := AStr (path_str file_path)]> supplied).

Section FileMetadata.
Context {Coll : Type} `{!Splitters, !Runtime}.

(** The object [add_file] writes to: the caller's, or a new one. *)
Definition metadata_ref (metadata : option loc) (w : World Coll) : loc :=
  match metadata with
  | Some l => l
  | None => fresh (dom (heap w))
  end.

(** The mapping the caller supplied, by value, before the call. *)
Definition supplied_metadata (metadata : option loc) (w : World Coll) : dict :=
  match metadata with
  | Some l => heap w !!! l
  | None => ∅
  end.

(** The world once [add_file] has written [source] and [file_type]. *)
Definition after_file_metadata (file_path file_type : string)
    (metadata : option loc) (w : World Coll) : World Coll :=
  mkWorld (<[metadata_ref metadata w :=
             file_metadata file_path file_type (supplied_metadata metadata w)]>
           (heap w))
          (coll w) (calls w) (stdout w).

(** The chunks of a file, none when reading or splitting raises. *)
Definition file_chunks (file_path file_type : string) : list chunk :=
  match read_text file_path with
  | Returns text =>
      match split_one (split_type_of file_type) text with
      | Returns cs => cs
      | Raises _ => []
      end
  | Raises _ => []
  end.

(** The [add] call that stores [cs] with the mapping [d] on every chunk. *)
Definition add_call (cs : list chunk) (d : dict) : list Call :=
  match cs with
  | [] => []
  | _ :: _ => [CallAdd cs (replicate (length cs) d) (generated_ids (length cs))]
  end.
End FileMetadata.


(** ** Sample collaborators

    Small executable collaborators on which the statements below are run. *)

Module Sample.
(** A store that keeps its records in a list, refuses a query on an
    empty collection and otherwise answers with every record. *)
Record record : Type := mkRecord {
  rec_id : string;
  rec_doc : chunk;
  rec_meta : dict
}.

Definition chunk_text (c : chunk) : string :=
  match c with
  | TextChunk s => s
  | DocChunk d => page_content d
  end.

Definition records (docs : list chunk) (metas : list dict)
    (ids : list string) : list record :=
  zip_with (λ p m, mkRecord p.1 p.2 m) (zip ids docs) metas.

#[export] Instance list_store : VectorStore (list record) := {
  coll_add c docs metas ids := (None, c ++ records docs metas ids);
  coll_query c _ _ _ _ :=
    match c with
    | [] => Raises (LibraryError "NotEnoughElementsException"
                      "Number of requested results cannot be greater than number of elements in index")
    | _ :: _ =>
        Returns (Some (mkQueryResult
          (Some [chunk_text ∘ rec_doc <$> c])
          (Some [rec_meta <$> c])
          (Some [(λ _, S754_zero false) <$> c])))
    end;
  coll_name _ := Returns "sample";
  coll_count c := Returns (Z.of_nat (length c))
}.



(** Splitters that cut at every space (plain) or keep the text whole
    as one document (the others). *)
Fixpoint words (s : string) (cur : string) : list string :=
  match s with
  | EmptyString => if decide (cur = "") then [] else [cur]
  | String a rest =>
      if decide (a = " "%char)
      then (if decide (cur = "") then [] else [cur]) ++ words rest ""
      else words rest (cur +:+ String a EmptyString)
  end.

Definition whole (s : string) : list Document :=
  if decide (s = "") then [] else [mkDocument s ∅].

#[export] Instance splitters : Splitters := {
  recursive_split_text s := Returns (words s "");
  markdown_split_text s := Returns (whole s);
  html_semantic_split_text s := Returns (whole s);
  json_create_documents l _ := Returns (l ≫= whole)
}.

(** Extension after the last dot; one file on disk. *)
Fixpoint suffix_from (s : string) (found : option string) : string :=
  match s with
  | EmptyString => default "" found
  | String a rest =>
      if decide (a = "."%char)
      then suffix_from rest (Some ".")
      else suffix_from rest ((λ f, f +:+ String a EmptyString) <$> found)
  end.

#[export] Instance runtime : Runtime := {
  path_str p := p;
  path_suffix p := suffix_from p None;
  str_lower s := s;
  read_text p :=
    if decide (p = "notes.md") then Returns "alpha beta"
    else if decide (p = "notes.txt") then Returns "alpha beta"
    else Raises (LibraryError "FileNotFoundError" p)
}.

(** Two caller-owned metadata objects, at references 0 and 1. *)
Definition world0 {Coll : Type} (c : Coll) : World Coll :=
  mkWorld (<[1 := <["lang" := AStr "fr"]> ∅]>
           (<[0 := <["source" := AStr "mine"]> (<["lang" := AStr "en"]> ∅)]> ∅))
          c [] [].

(** An empty collection and one that holds two records. *)
Definition empty_world : World (list record) := world0 [].

Definition stocked_world : World (list record) :=
  world0 [mkRecord "doc0" (TextChunk "alpha") (<["lang" := AStr "en"]> ∅);
          mkRecord "doc1" (TextChunk "beta") ∅].
End Sample.

Section Forwarded.
Context {Coll : Type}.

(** The mappings the store is to receive for [metadatas], by value. *)
Definition forwarded_metadata (w : World Coll) (n : nat)
    (metadatas : option (list loc)) : list dict :=
  match metadatas with
  | None => replicate n ∅
  | Some ms => ((λ l, heap w !!! l) <$> ms) ++ replicate (n - length ms) ∅
  end.
End Forwarded.

(** ** text_splitter.py: documents with metadata and PDF input *)

(** The collaborators of [create_documents] and [split_pdf]. *)
Class DocumentTools : Type := {
  (* PyPDFLoader(path).load(): one document per page *)
  pdf_load : string → outcome (list Document);
  (* RecursiveCharacterTextSplitter.create_documents(texts, metadatas) *)
  recursive_create_documents :
    list string → option (list dict) → outcome (list Document)
}.

(** An argument of type [Union[str, Path]]. *)
Inductive path_arg : Type :=
  | StrArg (s : string)
  | PathArg (raw : string).    (* Path(raw) *)

Section Documents.
Context `{!DocumentTools, !Runtime}.

(** [str(pdf_path)]: a [str] as it is, a path as pathlib prints it. *)
Definition path_arg_str (p : path_arg) : string :=
  match p with
  | StrArg s => s
  | PathArg raw => path_str raw
  end.

(** [TextSplitter.create_documents] *)
Definition create_documents (texts : list string)
    (metadatas : option (list dict)) : outcome (list Document) :=
  recursive_create_documents texts metadatas.

(** [[{"page": i + 1, "source": str(pdf_path)} for i in range(n)]] *)
Definition page_metadatas (n : nat) (source : string) : list dict :=
  (λ i : nat, <["source" := AStr source]>
               (<["page" := AInt (Z.of_nat i + 1)]> ∅)) <$> seq 0 n.

(** [TextSplitter.split_pdf] *)
Definition split_pdf (pdf_path : path_arg) : outcome (list Document) :=
  pages ← pdf_load (path_arg_str pdf_path);
  let texts := page_content <$> pages in
  let metadatas := page_metadatas (length pages) (path_arg_str pdf_path) in
  create_documents texts (Some metadatas).
End Documents.

(** ** storage.py: opening the collection *)

(** The calls [ChromaStorage.__init__] makes on [chromadb]. *)
Inductive ClientCall : Type :=
  | NewPersistentClient (path : string)
  | NewClient
  | GetCollection (name : string)
  | CreateCollection (name : string).

(** [chromadb]'s clients, over the client type and the collection type. *)
Class VectorClient (Client Coll : Type) : Type := {
  (* chromadb.PersistentClient(path=..., settings=Settings(allow_reset=True)) *)
  persistent_client : string → outcome Client;
  (* chromadb.Client(settings=Settings(allow_reset=True)) *)
  in_memory_client : outcome Client;
  get_collection : Client → string → outcome Coll;
  create_collection : Client → string → outcome Coll;
  (* isinstance(e, chromadb.errors.NotFoundError) *)
  is_NotFoundError : exn → bool
}.

(** The two attributes of a storage object. *)
Record Storage (Client Coll : Type) : Type := mkStorage {
  client : Client;
  collection : Coll
}.
Arguments mkStorage {Client Coll} client collection.
Arguments client {Client Coll} s.
Arguments collection {Client Coll} s.

Module ChromaStorageInit.
Section Init.
Context {Client Coll : Type} `{!VectorClient Client Coll}.

(** The first statement: which client is built.  [persist_directory] is
    tested for truthiness, so [None] and the empty string take the same
    arm. *)
Definition make_client (persist_directory : option string)
    : outcome Client * list ClientCall :=
  match persist_directory with
  | Some (String a rest) =>
      (persistent_client (String a rest),
       [NewPersistentClient (String a rest)])
  | Some EmptyString | None => (in_memory_client, [NewClient])
  end.

(** The [try]/[except NotFoundError]: get the collection, create it when
    it is not found. *)
Definition get_or_create (cl : Client) (collection_name : string)
    : outcome Coll * list ClientCall :=
  match get_collection cl collection_name with
  | Returns c => (Returns c, [GetCollection collection_name])
  | Raises e =>
      if is_NotFoundError e
      then (create_collection cl collection_name,
            [GetCollection collection_name;
             CreateCollection collection_name])
      else (Raises e, [GetCollection collection_name])
  end.

(** [ChromaStorage.__init__]: the object built, or the exception, and the
    calls made. *)
Definition __init__ (collection_name : string) (persist_directory : option string)
    : outcome (Storage Client Coll) * list ClientCall :=
  match make_client persist_directory with
  | (Returns cl, made) =>
      match get_or_create cl collection_name with
      | (Returns c, asked) => (Returns (mkStorage cl c), made ++ asked)
      | (Raises e, asked) => (Raises e, made ++ asked)
      end
  | (Raises e, made) => (Raises e, made)
  end.
End Init.
End ChromaStorageInit.

(** ** Further sample collaborators *)

Module SampleTools.
(** A loader with a two-page file and a splitter that keeps each text
    whole under its metadata. *)
#[export] Instance tools : DocumentTools := {
  pdf_load p :=
    if decide (p = "book.pdf")
    then Returns [mkDocument "page one" ∅; mkDocument "page two" ∅]
    else Raises (LibraryError "FileNotFoundError" p);
  recursive_create_documents texts metadatas :=
    Returns (zip_with mkDocument texts
               (default (replicate (length texts) ∅) metadatas))
}.

(** A client over a list of collection names: a collection is its name. *)
#[export] Instance names_client : VectorClient (list string) string := {
  persistent_client path := Returns ["kept"];
  in_memory_client := Returns [];
  get_collection cl name :=
    if decide (name ∈ cl) then Returns name
    else Raises (LibraryError "NotFoundError" name);
  create_collection cl name := Returns name;
  is_NotFoundError e :=
    match e with
    | LibraryError cls _ => bool_decide (cls = "NotFoundError")
    | _ => false
    end
}.

(** An answer with two documents and one metadata. *)
Definition short_answer : QueryResult :=
  mkQueryResult (Some [["alpha"; "beta"]]) (Some [[∅]]) None.

(** A store that sends [short_answer] to every query. *)
Definition short_store : VectorStore unit := {|
  coll_add c _ _ _ := (None, c);
  coll_query _ _ _ _ _ := Returns (Some short_answer);
  coll_name _ := Returns "short";
  coll_count _ := Returns 2%Z
|}.

(** Splitters that refuse an empty text and keep any other text whole. *)
Definition refuse_empty (s : string) : outcome (list Document) :=
  if decide (s = "") then Raises (ValueError "empty text")
  else Returns [mkDocument s ∅].

Definition strict_splitters : Splitters := {|
  recursive_split_text s :=
    (λ ds : list Document, page_content <$> ds) <$> refuse_empty s;
  markdown_split_text := refuse_empty;
  html_semantic_split_text := refuse_empty;
  json_create_documents l _ := refuse_empty (default "" (head l))
|}.

(** A store that sends documents only. *)
Definition bare_store : VectorStore unit := {|
  coll_add c _ _ _ := (None, c);
  coll_query _ _ _ _ _ :=
    Returns (Some (mkQueryResult (Some [["alpha"; "beta"]]) None None));
  coll_name _ := Returns "bare";
  coll_count _ := Returns 2%Z
|}.
End SampleTools.

(** ** Facts about the loops *)

Section LoopFacts.
Context `{!Splitters}.

Lemma index_lookup {A : Type} (l : list A) (i : nat) (x : A) :
  l !! i = Some x → index l i = Returns x.
Proof. intros Hx. unfold index. by rewrite Hx. Qed.

Lemma index_out_of_range {A : Type} (l : list A) (i : nat) :
  length l ≤ i → index l i = Raises (IndexError "list index out of range").
Proof.
  intros Hle. unfold index. by rewrite (lookup_ge_None_2 l i Hle).
Qed.

(** The extending loop concatenates the chunk lists in text order. *)
Lemma extend_each_concat (f : string → outcome (list chunk))
    (texts : list string) (css : list (list chunk)) (acc : list chunk) :
  Forall2 (λ text cs, f text = Returns cs) texts css →
  extend_each f texts acc = Returns (acc ++ concat css).
Proof.
  intros Hall. revert acc.
  induction Hall as [|text cs texts css Hf _ IH]; intros acc; simpl.
  - by rewrite app_nil_r.
  - rewrite Hf. simpl. rewrite IH. by rewrite app_assoc.
Qed.

(** The inner replication loop appends one reference per chunk. *)
Lemma append_each_replicate (metadatas : list loc) (i : nat) (m : loc)
    (text_chunks : list chunk) (acc : list loc) :
  metadatas !! i = Some m →
  append_each metadatas i text_chunks acc
  = Returns (acc ++ replicate (length text_chunks) m).
Proof.
  intros Hm. revert acc.
  induction text_chunks as [|c rest IH]; intros acc; simpl.
  - by rewrite app_nil_r.
  - rewrite (index_lookup _ _ _ Hm). simpl. rewrite IH.
    by rewrite <- app_assoc.
Qed.

(** With no chunk the inner loop never reads [metadatas]. *)
Lemma append_each_nil (metadatas : list loc) (i : nat) (acc : list loc) :
  append_each metadatas i [] acc = Returns acc.
Proof. reflexivity. Qed.

(** With a chunk and no [i]-th metadata the inner loop raises. *)
Lemma append_each_missing (metadatas : list loc) (i : nat) (c : chunk)
    (rest : list chunk) (acc : list loc) :
  length metadatas ≤ i →
  append_each metadatas i (c :: rest) acc
  = Raises (IndexError "list index out of range").
Proof. intros Hle. simpl. by rewrite index_out_of_range. Qed.


Lemma split_one_returns_tag (split_type text : string) (cs : list chunk) :
  split_one split_type text = Returns cs → split_type ∈ split_types.
Proof.
  unfold split_one, split_types. intros Hs.
  repeat case_decide; subst; try discriminate; set_solver.
Qed.

Lemma split_all_concat (split_type : string) (texts : list string)
    (css : list (list chunk)) :
  texts ≠ [] →
  Forall2 (λ text cs, split_one split_type text = Returns cs) texts css →
  split_all split_type texts = Returns (concat css).
Proof.
  intros Hne Hall.
  assert (split_type ∈ split_types) as Htag.
  { destruct Hall as [|text cs ? ? Hs _]; [done|].
    by apply (split_one_returns_tag _ text cs). }
  unfold split_types in Htag.
  rewrite !elem_of_cons, elem_of_nil in Htag.
  destruct Htag as [->|[->|[->|[->|[]]]]].
  - exact (extend_each_concat split_text texts css [] Hall).
  - exact (extend_each_concat split_markdown texts css [] Hall).
  - exact (extend_each_concat split_html_semantic texts css [] Hall).
  - exact (extend_each_concat (λ text, split_json text false) texts css []
             Hall).
Qed.

Lemma split_all_single (s : strategy) (text : string) :
  split_all (strategy_tag s) [text] = run_strategy s text.
Proof.
  destruct s; unfold split_all, split_texts; simpl;
    match goal with |- context [mbind _ ?o] => by destruct o end.
Qed.

Lemma split_all_unsupported (split_type : string) (texts : list string) :
  split_type ∉ split_types →
  split_all split_type texts
  = Raises (ValueError ("Unsupported split_type: " +:+ split_type)).
Proof.
  unfold split_types, split_all. intros Hout.
  repeat case_decide; subst; try done; set_solver.
Qed.

(** The outer replication loop, when every text still to visit has its
    metadata. *)
Lemma replicate_metadata_replicated (split_type : string)
    (metadatas : list loc) (texts : list string)
    (css : list (list chunk)) (i : nat) (acc : list loc) :
  Forall2 (λ text cs, split_one split_type text = Returns cs) texts css →
  i + length texts ≤ length metadatas →
  replicate_metadata split_type metadatas i texts acc
  = Returns (acc ++ replicated css (drop i metadatas)).
Proof.
  intros Hall. revert i acc.
  induction Hall as [|text cs texts css Hs _ IH]; intros i acc Hlen; simpl.
  - unfold replicated. simpl. by rewrite app_nil_r.
  - simpl in Hlen.
    destruct (lookup_lt_is_Some_2 metadatas i) as [m Hm]; [lia|].
    rewrite Hs. simpl.
    rewrite (append_each_replicate _ _ m _ _ Hm). simpl.
    rewrite IH by lia.
    rewrite (drop_S _ _ _ Hm). unfold replicated. simpl.
    by rewrite <- app_assoc.
Qed.

Lemma length_replicated {A : Type} (css : list (list chunk)) (ms : list A) :
  length css ≤ length ms →
  length (replicated css ms) = length (concat css).
Proof.
  unfold replicated. revert ms.
  induction css as [|cs css IH]; intros ms Hlen; [done|].
  destruct ms as [|m ms]; simpl in *; [lia|].
  rewrite !length_app, length_replicate, IH by lia. done.
Qed.

Lemma replicated_fmap {A B : Type} (f : A → B) (css : list (list chunk))
    (ms : list A) :
  f <$> replicated css ms = replicated css (f <$> ms).
Proof.
  unfold replicated. revert ms.
  induction css as [|cs css IH]; intros ms; [done|].
  destruct ms as [|m ms]; simpl; [done|].
  by rewrite fmap_app, fmap_replicate, IH.
Qed.
End LoopFacts.

(** ** Facts about the storage wrapper *)

Section StorageFacts.
Context {Coll : Type} `{!VectorStore Coll}.

(** Allocation leaves the collection, the call log and the output alone
    and keeps every object that exists. *)
Lemma alloc_empty_frame (n : nat) (w : World Coll) :
  ∃ ls h,
    alloc_empty n w = (Returns ls, mkWorld h (coll w) (calls w) (stdout w))
    ∧ length ls = n
    ∧ (∀ l d, heap w !! l = Some d → h !! l = Some d)
    ∧ Forall (λ l, h !! l = Some ∅) ls.
Proof.
  revert w. induction n as [|n IH]; intros w.
  - exists [], (heap w). by destruct w.
  - simpl. unfold bind at 1. unfold alloc at 1.
    set (l := fresh (dom (heap w))).
    set (w1 := mkWorld (<[l:=∅]> (heap w)) (coll w) (calls w) (stdout w)).
    destruct (IH w1) as (ls & h & Hrun & Hlen & Hkeep & Hnew).
    exists (l :: ls), h. unfold bind. rewrite Hrun. simpl.
    split; [done|]. split; [by rewrite Hlen|].
    assert (heap w !! l = None) as Hfresh.
    { apply not_elem_of_dom. apply is_fresh. }
    split.
    + intros l' d Hl'. apply Hkeep. simpl.
      rewrite lookup_insert_ne; [done|]. intros ->. congruence.
    + constructor; [|done]. apply Hkeep. simpl. by rewrite lookup_insert_eq.
Qed.

(** What one call of [collection.add] leaves behind. *)
Lemma collection_add_world (docs : list chunk) (metas : list loc)
    (ids : list string) (w : World Coll) :
  let w' := (collection_add docs metas ids w).2 in
  heap w' = heap w
  ∧ calls w' = calls w ++ [CallAdd docs ((λ l, heap w !!! l) <$> metas) ids]
  ∧ stdout w' = stdout w.
Proof.
  unfold collection_add.
  by destruct (coll_add (coll w) docs _ ids) as [err c].
Qed.

(** With one reference per text nothing is padded. *)
Lemma storage_add_texts_matching (texts : list chunk) (ms : list loc)
    (w : World Coll) :
  texts ≠ [] → length ms = length texts →
  ChromaStorage.add_texts texts (Some ms) None w
  = collection_add texts ms (generated_ids (length texts)) w.
Proof.
  intros Hne Hlen. destruct texts as [|c texts]; [done|].
  unfold ChromaStorage.add_texts.
  rewrite bool_decide_eq_false_2 by (intros Hbad; by apply Hbad).
  reflexivity.
Qed.

(** Whatever the metadata argument, a non-empty list of texts with no
    ids makes exactly one [add] call, with the generated ids; objects
    that exist are kept. *)
Lemma storage_add_texts_call (texts : list chunk)
    (metadatas : option (list loc)) (w : World Coll) :
  texts ≠ [] →
  let w' := (ChromaStorage.add_texts texts metadatas None w).2 in
  (∃ metas,
     calls w' = calls w ++ [CallAdd texts metas (generated_ids (length texts))])
  ∧ stdout w' = stdout w
  ∧ (∀ l d, heap w !! l = Some d → heap w' !! l = Some d).
Proof.
  intros Hne. destruct texts as [|c texts]; [done|].
  unfold ChromaStorage.add_texts.
  set (n := length (c :: texts)).
  assert (∀ k (ms0 : list loc),
    let w' := (bind (bind (alloc_empty k) (λ pad, ret (ms0 ++ pad)))
                 (λ ms, collection_add (c :: texts) ms (generated_ids n)) w).2 in
    (∃ metas, calls w' = calls w ++ [CallAdd (c :: texts) metas (generated_ids n)])
    ∧ stdout w' = stdout w
    ∧ (∀ l d, heap w !! l = Some d → heap w' !! l = Some d)) as Hpad.
  { intros k ms0.
    destruct (alloc_empty_frame k w) as (ls & h & Hrun & _ & Hkeep & _).
    unfold bind. rewrite Hrun. unfold ret.
    set (w1 := mkWorld h (coll w) (calls w) (stdout w)).
    destruct (collection_add_world (c :: texts) (ms0 ++ ls) (generated_ids n) w1)
      as (Hh & Hc & Ho).
    simpl. rewrite Hh, Hc, Ho. simpl. eauto. }
  assert (∀ (ms : list loc),
    let w' := (bind (ret ms)
                 (λ ms, collection_add (c :: texts) ms (generated_ids n)) w).2 in
    (∃ metas, calls w' = calls w ++ [CallAdd (c :: texts) metas (generated_ids n)])
    ∧ stdout w' = stdout w
    ∧ (∀ l d, heap w !! l = Some d → heap w' !! l = Some d)) as Hsame.
  { intros ms. unfold bind, ret.
    destruct (collection_add_world (c :: texts) ms (generated_ids n) w)
      as (Hh & Hc & Ho).
    simpl. rewrite Hh, Hc, Ho. eauto. }
  destruct metadatas as [ms|].
  - case_bool_decide.
    + apply (Hpad (n - length ms) ms).
    + apply Hsame.
  - destruct (alloc_empty_frame n w) as (ls & h & Hrun & _ & Hkeep & _).
    unfold bind. rewrite Hrun.
    set (w1 := mkWorld h (coll w) (calls w) (stdout w)).
    destruct (collection_add_world (c :: texts) ls (generated_ids n) w1)
      as (Hh & Hc & Ho).
    simpl. rewrite Hh, Hc, Ho. simpl. eauto.
Qed.

Lemma generated_ids_length (n : nat) : length (generated_ids n) = n.
Proof. unfold generated_ids. by rewrite length_fmap, length_seq. Qed.

Lemma generated_ids_lookup (n i : nat) :
  i < n → generated_ids n !! i = Some ("doc" +:+ pretty i).
Proof.
  intros Hlt. unfold generated_ids.
  rewrite list_lookup_fmap, lookup_seq_lt by done. done.
Qed.
End StorageFacts.

(** ** Adding texts *)

Section AddTexts.
Context {Coll : Type} `{!VectorStore Coll, !Splitters, !Runtime}.

(** [RAGEngine.add_texts] on texts that all split, with one metadata reference per
    text at least: it is the storage call on the concatenated chunks and
    the replicated references. *)
Lemma add_texts_with_metadata (texts : list string) (ms : list loc)
    (split_type : string) (css : list (list chunk)) (w : World Coll) :
  texts ≠ [] → length texts ≤ length ms →
  Forall2 (λ text cs, split_one split_type text = Returns cs) texts css →
  RAGEngine.add_texts texts (Some ms) split_type w
  = ChromaStorage.add_texts (concat css) (Some (replicated css ms)) None w.
Proof.
  intros Hne Hlen Hall. unfold RAGEngine.add_texts.
  destruct texts as [|text texts]; [done|].
  rewrite (split_all_concat split_type (text :: texts) css) by done.
  destruct ms as [|m ms]; [simpl in Hlen; lia|].
  cbn [truthy default].
  rewrite (replicate_metadata_replicated split_type (m :: ms)
             (text :: texts) css 0 []) by (done || (simpl in *; lia)).
  reflexivity.
Qed.

(** C5. Adding zero texts is a no-op: [RAGEngine.add_texts] and
    [ChromaStorage.add_texts] on an empty list return normally and leave
    the whole world as it was (no call on the collection, no change of
    the collection, nothing allocated or printed). *)
Theorem add_texts_empty_is_noop (metadatas : option (list loc))
    (split_type : string) (ids : option (list string)) (w : World Coll) :
  RAGEngine.add_texts [] metadatas split_type w = (Returns tt, w)
  ∧ ChromaStorage.add_texts [] metadatas ids w = (Returns tt, w).
Proof. split; reflexivity. Qed.

(** C3. For a non-empty list of texts and a split-type tag outside
    text, markdown, html and json, [RAGEngine.add_texts] raises
    [ValueError] and leaves the world as it was: no chunk reaches the
    collection. *)
Theorem add_texts_unsupported_split_type (texts : list string)
    (metadatas : option (list loc)) (split_type : string) (w : World Coll) :
  texts ≠ [] → split_type ∉ split_types →
  RAGEngine.add_texts texts metadatas split_type w
  = (Raises (ValueError ("Unsupported split_type: " +:+ split_type)), w).
Proof.
  intros Hne Hout. destruct texts as [|text texts]; [done|].
  unfold RAGEngine.add_texts, bind, lift.
  by rewrite (split_all_unsupported split_type (text :: texts) Hout).
Qed.

(** C1, amended. For a non-empty list of texts and a metadata list with
    at least one entry per text, when the [i]-th text splits into the
    chunks [css !! i], [RAGEngine.add_texts] hands storage the
    concatenated chunks together with [length (css !! i)] references to
    the [i]-th metadata for every [i], as many references as chunks;
    when there is a chunk, the collection receives in one [add] call,
    by value, that many copies of each text's metadata mapping. *)
Theorem add_texts_replicates_metadata (texts : list string) (ms : list loc)
    (split_type : string) (css : list (list chunk)) (w : World Coll) :
  texts ≠ [] → length texts ≤ length ms →
  Forall2 (λ text cs, split_one split_type text = Returns cs) texts css →
  let chunks := concat css in
  let run := RAGEngine.add_texts texts (Some ms) split_type w in
  run = ChromaStorage.add_texts chunks (Some (replicated css ms)) None w
  ∧ length (replicated css ms) = length chunks
  ∧ (chunks = [] → run = (Returns tt, w))
  ∧ (chunks ≠ [] →
     calls run.2
     = calls w ++ [CallAdd chunks
                     (replicated css ((λ l, heap w !!! l) <$> ms))
                     (generated_ids (length chunks))]).
Proof.
  intros Hne Hlen Hall chunks run.
  assert (length css ≤ length ms) as Hcss.
  { by rewrite <- (Forall2_length _ _ _ Hall). }
  assert (run = ChromaStorage.add_texts chunks (Some (replicated css ms)) None w)
    as Hrun by (by apply add_texts_with_metadata).
  split; [done|]. split; [by apply length_replicated|]. split.
  - intros Hnil. rewrite Hrun, Hnil. reflexivity.
  - intros Hsome. rewrite Hrun.
    rewrite storage_add_texts_matching
      by (done || by apply length_replicated).
    destruct (collection_add_world chunks (replicated css ms)
                (generated_ids (length chunks)) w) as (_ & Hc & _).
    rewrite Hc. by rewrite replicated_fmap.
Qed.

(** C9. [ChromaStorage.add_texts] with [n] texts and no ids forwards the
    ids doc0 .. doc(n-1) to the store, starting from 0 at every call:
    two successive calls forward the same id at every position both
    have, doc0 among them. *)
Theorem storage_add_texts_ids_restart (texts1 texts2 : list chunk)
    (metadatas1 metadatas2 : option (list loc)) (w : World Coll) :
  texts1 ≠ [] → texts2 ≠ [] →
  let w1 := (ChromaStorage.add_texts texts1 metadatas1 None w).2 in
  let w2 := (ChromaStorage.add_texts texts2 metadatas2 None w1).2 in
  ∃ metas1 metas2 ids1 ids2,
    calls w2 = calls w ++ [CallAdd texts1 metas1 ids1;
                           CallAdd texts2 metas2 ids2]
    ∧ length ids1 = length texts1
    ∧ length ids2 = length texts2
    ∧ (∀ i, i < length texts1 → ids1 !! i = Some ("doc" +:+ pretty i))
    ∧ (∀ i, i < length texts2 → ids2 !! i = Some ("doc" +:+ pretty i))
    ∧ (∀ i, i < length texts1 → i < length texts2 → ids1 !! i = ids2 !! i)
    ∧ "doc0" ∈ ids1 ∧ "doc0" ∈ ids2.
Proof.
  intros Hne1 Hne2 w1 w2.
  destruct (storage_add_texts_call texts1 metadatas1 w Hne1)
    as ((metas1 & Hc1) & _ & _).
  destruct (storage_add_texts_call texts2 metadatas2 w1 Hne2)
    as ((metas2 & Hc2) & _ & _).
  exists metas1, metas2, (generated_ids (length texts1)),
    (generated_ids (length texts2)).
  assert (0 < length texts1) as Hpos1 by (destruct texts1; [done|simpl; lia]).
  assert (0 < length texts2) as Hpos2 by (destruct texts2; [done|simpl; lia]).
  repeat split.
  - fold w2 in Hc2. rewrite Hc2. fold w1 in Hc1. rewrite Hc1.
    by rewrite <- app_assoc.
  - apply generated_ids_length.
  - apply generated_ids_length.
  - intros i Hi. by apply generated_ids_lookup.
  - intros i Hi. by apply generated_ids_lookup.
  - intros i Hi1 Hi2. by rewrite !generated_ids_lookup.
  - apply list_elem_of_lookup. exists 0. by rewrite generated_ids_lookup.
  - apply list_elem_of_lookup. exists 0. by rewrite generated_ids_lookup.
Qed.
End AddTexts.

(** ** Adding a file *)

Section AddFile.
Context {Coll : Type} `{!VectorStore Coll, !Splitters, !Runtime}.

(** The lookup table is the specification's table. *)
Lemma split_type_of_strategy (ext : string) :
  split_type_of ext = strategy_tag (strategy_of_extension ext).
Proof.
  unfold split_type_of, split_type_map, strategy_of_extension.
  repeat case_decide; subst; try reflexivity.
  by rewrite !lookup_insert_ne, lookup_empty.
Qed.

(** One text with one metadata reference: split, then store. *)
Lemma add_texts_single (text : string) (l : loc) (split_type : string)
    (w : World Coll) :
  split_type ∈ split_types →
  RAGEngine.add_texts [text] (Some [l]) split_type w
  = (let* chunks := lift (split_one split_type text) in
     ChromaStorage.add_texts chunks (Some (replicate (length chunks) l)) None) w.
Proof.
  intros Htag. unfold bind at 1, lift at 1.
  destruct (split_one split_type text) as [cs|e] eqn:Hs.
  - rewrite (add_texts_with_metadata [text] [l] split_type [cs] w);
      [|done|done|by repeat constructor].
    unfold replicated. simpl. by rewrite !app_nil_r.
  - unfold split_types in Htag.
    rewrite !elem_of_cons, elem_of_nil in Htag.
    assert (split_all split_type [text] = Raises e) as Hall.
    { destruct Htag as [->|[->|[->|[->|[]]]]];
        unfold split_all, split_texts; simpl;
        change (split_one _ text) with (split_text text) in Hs ||
        change (split_one _ text) with (split_markdown text) in Hs ||
        change (split_one _ text) with (split_html_semantic text) in Hs ||
        change (split_one _ text) with (split_json text false) in Hs;
        by rewrite Hs. }
    unfold RAGEngine.add_texts, bind, lift. by rewrite Hall.
Qed.

(** [add_file], all of it: write the two keys, read, split, store. *)
Lemma add_file_run (file_path : string) (metadata : option loc)
    (file_type : option string) (w : World Coll) :
  let ft := detect_file_type file_path file_type in
  add_file file_path metadata file_type w
  = (let* text := lift (read_text file_path) in
     let* chunks := lift (split_one (split_type_of ft) text) in
     ChromaStorage.add_texts chunks
       (Some (replicate (length chunks) (metadata_ref metadata w))) None)
    (after_file_metadata file_path ft metadata w).
Proof.
  intros ft.
  assert (split_type_of ft ∈ split_types) as Htag.
  { rewrite split_type_of_strategy. unfold split_types.
    destruct (strategy_of_extension ft); set_solver. }
  set (l := metadata_ref metadata w).
  set (w' := after_file_metadata file_path ft metadata w).
  assert (add_file file_path metadata file_type w
          = (let* text := lift (read_text file_path) in
             RAGEngine.add_texts [text] (Some [l]) (split_type_of ft)) w') as ->.
  { unfold add_file. fold ft.
    unfold w', after_file_metadata, file_metadata. fold l.
    destruct metadata as [l0|]; simpl in l; subst l;
      unfold bind at 1; simpl; unfold bind at 1; simpl;
      unfold bind at 1; simpl.
    - rewrite lookup_total_insert_eq, insert_insert_eq. reflexivity.
    - rewrite !lookup_total_insert_eq, !insert_insert_eq. reflexivity. }
  unfold bind at 1 3, lift at 1 3.
  destruct (read_text file_path) as [text|e]; [|done].
  by apply add_texts_single.
Qed.

(** What [add_file] leaves behind, in every outcome. *)
Lemma add_file_world (file_path : string) (metadata : option loc)
    (file_type : option string) (w : World Coll) :
  let ft := detect_file_type file_path file_type in
  let d := file_metadata file_path ft (supplied_metadata metadata w) in
  let w' := (add_file file_path metadata file_type w).2 in
  heap w' = <[metadata_ref metadata w := d]> (heap w)
  ∧ calls w' = calls w ++ add_call (file_chunks file_path ft) d
  ∧ stdout w' = stdout w.
Proof.
  intros ft d w'. unfold w'. rewrite add_file_run. fold ft.
  set (l := metadata_ref metadata w).
  set (w1 := after_file_metadata file_path ft metadata w).
  unfold file_chunks, bind at 1, lift at 1.
  destruct (read_text file_path) as [text|e]; simpl;
    [|by rewrite app_nil_r].
  unfold bind, lift.
  destruct (split_one (split_type_of ft) text) as [cs|e]; simpl;
    [|by rewrite app_nil_r].
  destruct cs as [|c cs]; [simpl; by rewrite app_nil_r|].
  rewrite storage_add_texts_matching by (done || by rewrite length_replicate).
  destruct (collection_add_world (c :: cs)
              (replicate (length (c :: cs)) l)
              (generated_ids (length (c :: cs))) w1) as (Hh & Hc & Ho).
  rewrite Hh, Hc, Ho. rewrite fmap_replicate.
  unfold w1, after_file_metadata. simpl. fold l d.
  by rewrite lookup_total_insert_eq.
Qed.

Lemma file_metadata_lookup (file_path file_type : string) (supplied : dict) :
  file_metadata file_path file_type supplied !! "source"
    = Some (AStr (path_str file_path))
  ∧ file_metadata file_path file_type supplied !! "file_type"
    = Some (AStr file_type)
  ∧ ∀ key, key ≠ "source" → key ≠ "file_type" →
      file_metadata file_path file_type supplied !! key = supplied !! key.
Proof.
  unfold file_metadata. split; [|split].
  - by rewrite lookup_insert_ne, lookup_insert_eq.
  - by rewrite lookup_insert_eq.
  - intros key Hs Ht. by rewrite !lookup_insert_ne.
Qed.
End AddFile.

Section AddFileClaims.
Context {Coll : Type} `{!VectorStore Coll, !Splitters, !Runtime}.



(** C10. [RAGEngine.add_file] with a caller's mapping writes to that very
    object: in every outcome the object holds afterwards the caller's
    entries with [source] set to the file path and [file_type] to the
    detected or overriding type, whatever the caller had under these two
    keys; the mappings the collection receives are that same mapping. *)
Theorem add_file_mutates_caller_metadata (file_path : string) (l : loc)
    (file_type : option string) (w : World Coll) :
  let ft := detect_file_type file_path file_type in
  let d := file_metadata file_path ft (heap w !!! l) in
  let w' := (add_file file_path (Some l) file_type w).2 in
  heap w' = <[l := d]> (heap w)
  ∧ heap w' !! l = Some d
  ∧ d !! "source" = Some (AStr (path_str file_path))
  ∧ d !! "file_type" = Some (AStr ft)
  ∧ ∃ new, calls w' = calls w ++ new
      ∧ ∀ docs metas ids, CallAdd docs metas ids ∈ new →
          Forall (λ m, m = d) metas.
Proof.
  intros ft d w'.
  destruct (add_file_world file_path (Some l) file_type w) as (Hh & Hc & _).
  fold ft in Hh, Hc. simpl in Hh, Hc. fold d w' in Hh, Hc.
  destruct (file_metadata_lookup file_path ft (heap w !!! l)) as (Hs & Ht & _).
  split; [done|]. split; [by rewrite Hh, lookup_insert_eq|].
  split; [done|]. split; [done|].
  exists (add_call (file_chunks file_path ft) d). split; [done|].
  intros docs metas ids Hin. unfold add_call in Hin.
  destruct (file_chunks file_path ft) as [|c cs]; [by apply elem_of_nil in Hin|].
  apply list_elem_of_singleton in Hin. injection Hin as _ -> _.
  apply Forall_forall. intros m Hm.
  change (m ∈ replicate (length (c :: cs)) d) in Hm.
  by apply elem_of_replicate in Hm as [-> _].
Qed.
End AddFileClaims.

(** ** Facts about formatting the store's answer *)

Section FormatFacts.

Lemma index_raises {A : Type} (l : list A) (i : nat) (e : exn) :
  index l i = Raises e → e = IndexError "list index out of range".
Proof. unfold index. destruct (l !! i); congruence. Qed.

Lemma truthy_first_row {A : Type} (o : option (list (list A))) :
  truthy o = true → ∃ row, first_row o = Some row
                           ∧ index (default [] o) 0 = Returns row.
Proof. destruct o as [[|row rest]|]; try done. intros _. by exists row. Qed.

Lemma falsy_first_row {A : Type} (o : option (list (list A))) :
  truthy o = false → first_row o = None.
Proof. by destruct o as [[|row rest]|]. Qed.

(** A formatted match has the three keys and reads position [i] of each
    row the store sent. *)
Lemma format_match_returns (results : QueryResult) (row : list string)
    (i : nat) (r : result) :
  format_match results row i = Returns r →
  dom r = ({["text"; "metadata"; "distance"]} : gset string)
  ∧ is_Some (row !! i)
  ∧ r !! "text" = (λ d, VAtom (AStr d)) <$> row !! i
  ∧ r !! "metadata"
    = match first_row (metadatas results) with
      | Some mrow => VDict <$> mrow !! i
      | None => Some (VDict ∅)
      end
  ∧ r !! "distance"
    = match first_row (distances results) with
      | Some drow => (λ x, VAtom (AFloat x)) <$> drow !! i
      | None => Some (VAtom ANone)
      end.
Proof.
  unfold format_match. intros Hr.
  destruct (index row i) as [d|e] eqn:Hidx; simpl in Hr; [|done].
  assert (row !! i = Some d) as Hd.
  { unfold index in Hidx. destruct (row !! i); congruence. }
  rewrite Hd.
  match type of Hr with
  | mbind _ ?o = _ => destruct o as [m|e] eqn:Hm; simpl in Hr; [|done]
  end.
  match type of Hr with
  | mbind _ ?o = _ => destruct o as [x|e] eqn:Hx; simpl in Hr; [|done]
  end.
  injection Hr as <-.
  assert (Some m = match first_row (metadatas results) with
                   | Some mrow => VDict <$> mrow !! i
                   | None => Some (VDict ∅)
                   end) as Hmspec.
  { destruct (truthy (metadatas results)) eqn:Ht.
    - destruct (truthy_first_row _ Ht) as (mrow & Hfirst & Hrow0).
      rewrite Hrow0 in Hm. rewrite Hfirst. simpl in Hm. unfold index in Hm.
      destruct (mrow !! i); by simplify_eq/=.
    - rewrite (falsy_first_row _ Ht). congruence. }
  assert (Some x = match first_row (distances results) with
                   | Some drow => (λ x, VAtom (AFloat x)) <$> drow !! i
                   | None => Some (VAtom ANone)
                   end) as Hxspec.
  { destruct (truthy (distances results)) eqn:Ht.
    - destruct (truthy_first_row _ Ht) as (drow & Hfirst & Hrow0).
      rewrite Hrow0 in Hx. rewrite Hfirst. simpl in Hx. unfold index in Hx.
      destruct (drow !! i); by simplify_eq/=.
    - rewrite (falsy_first_row _ Ht). congruence. }
  split; [|split; [by eexists|split; [|split]]].
  - rewrite !dom_insert_L, dom_empty_L. set_solver.
  - rewrite !lookup_insert_ne by done. by rewrite lookup_insert_eq.
  - rewrite lookup_insert_ne by done. by rewrite lookup_insert_eq, Hmspec.
  - by rewrite lookup_insert_eq, Hxspec.
Qed.

Lemma format_match_raises (results : QueryResult) (row : list string)
    (i : nat) (e : exn) :
  format_match results row i = Raises e → is_Exception e = true.
Proof.
  unfold format_match, index. intros He.
  repeat (case_match; simplify_eq/=); done.
Qed.

(** The loop appends one match per position, in position order. *)
Lemma format_from_returns (results : QueryResult) (row : list string)
    (n i : nat) (acc out : list result) :
  format_from results row i n acc = Returns out →
  ∃ new, out = acc ++ new ∧ length new = n
         ∧ ∀ j r, new !! j = Some r →
             format_match results row (i + j) = Returns r.
Proof.
  revert i acc. induction n as [|n IH]; intros i acc Hout; simpl in Hout.
  - injection Hout as <-. exists []. by rewrite app_nil_r.
  - destruct (format_match results row i) as [r|e] eqn:Hr; [|done].
    simpl in Hout. destruct (IH _ _ Hout) as (new & -> & Hlen & Hnew).
    exists (r :: new). split; [by rewrite <- app_assoc|].
    split; [simpl; by rewrite Hlen|].
    intros [|j] r' Hj; simpl in Hj.
    + injection Hj as <-. by rewrite Nat.add_0_r.
    + rewrite <- Nat.add_succ_comm. by apply Hnew.
Qed.

Lemma format_from_raises (results : QueryResult) (row : list string)
    (n i : nat) (acc : list result) (e : exn) :
  format_from results row i n acc = Raises e → is_Exception e = true.
Proof.
  revert i acc. induction n as [|n IH]; intros i acc He; simpl in He; [done|].
  destruct (format_match results row i) as [r|e'] eqn:Hr; simpl in He.
  - by apply (IH _ _ He).
  - injection He as <-. by apply (format_match_raises _ _ _ _ Hr).
Qed.

Lemma format_results_raises (results : option QueryResult) (e : exn) :
  format_results results = Raises e → is_Exception e = true.
Proof.
  unfold format_results. destruct results as [r|]; [|done].
  destruct (truthy (documents r)) eqn:Ht; [|done].
  destruct (truthy_first_row _ Ht) as (row & _ & ->). simpl.
  apply format_from_raises.
Qed.

(** What a returned list of matches is. *)
Lemma format_results_returns (results : option QueryResult)
    (rs : list result) :
  format_results results = Returns rs →
  rs = []
  ∨ ∃ res row, results = Some res ∧ first_row (documents res) = Some row
      ∧ length rs = length row
      ∧ ∀ i r, rs !! i = Some r → format_match res row i = Returns r.
Proof.
  unfold format_results. destruct results as [res|]; [|left; congruence].
  destruct (truthy (documents res)) eqn:Ht; [|left; congruence].
  destruct (truthy_first_row _ Ht) as (row & Hfirst & ->). simpl.
  intros Hrs. destruct (format_from_returns _ _ _ _ _ _ Hrs)
    as (new & -> & Hlen & Hnew).
  right. exists res, row. simpl. eauto.
Qed.

End FormatFacts.

(** ** Querying and collection information *)

Section Query.
Context {Coll : Type} `{!VectorStore Coll, !Splitters, !Runtime}.

(** [ChromaStorage.query] by the answer of the collection. *)
Lemma storage_query_run (query_text : string) (top_k : Z)
    (where_ where_document : option dict) (w : World Coll) :
  let asked := mkWorld (heap w) (coll w)
                 (calls w ++ [CallQuery [query_text] top_k where_ where_document])
                 (stdout w) in
  let said e := mkWorld (heap w) (coll w) (calls asked)
                  (stdout w ++ ["Error querying collection: " +:+ exn_str e]) in
  ChromaStorage.query query_text top_k where_ where_document w
  = match coll_query (coll w) [query_text] top_k where_ where_document with
    | Returns results =>
        match format_results results with
        | Returns rs => (Returns rs, asked)
        | Raises e => (Returns [], said e)
        end
    | Raises e =>
        if is_Exception e then (Returns [], said e) else (Raises e, asked)
    end.
Proof.
  intros asked said.
  unfold ChromaStorage.query, try_except, bind, collection_query, lift.
  destruct (coll_query (coll w) [query_text] top_k where_ where_document)
    as [results|e].
  - destruct (format_results results) as [rs|e] eqn:Hf; [done|].
    by rewrite (format_results_raises _ _ Hf).
  - by destruct (is_Exception e).
Qed.


(** C7. Every list [ChromaStorage.query] returns is made of mappings with
    exactly the keys text, metadata and distance; it is empty or as long
    as the first row of documents the store sent, and its [i]-th mapping
    holds the [i]-th document, the [i]-th metadata and the [i]-th distance
    of the store's first rows (an empty mapping and [None] where the store
    sent no such row): the store's order is kept. *)
Theorem query_matches_keep_store_order (query_text : string) (top_k : Z)
    (where_ where_document : option dict) (w : World Coll)
    (rs : list result) :
  (ChromaStorage.query query_text top_k where_ where_document w).1 = Returns rs →
  (RAGEngine.query query_text top_k where_ where_document w).1 = Returns rs
  ∧ Forall (λ r, dom r = ({["text"; "metadata"; "distance"]} : gset string)) rs
  ∧ (rs = []
     ∨ ∃ res row,
         coll_query (coll w) [query_text] top_k where_ where_document
         = Returns (Some res)
         ∧ first_row (documents res) = Some row
         ∧ length rs = length row
         ∧ ∀ i r, rs !! i = Some r →
             is_Some (row !! i)
             ∧ r !! "text" = (λ d, VAtom (AStr d)) <$> row !! i
             ∧ r !! "metadata"
               = match first_row (metadatas res) with
                 | Some mrow => VDict <$> mrow !! i
                 | None => Some (VDict ∅)
                 end
             ∧ r !! "distance"
               = match first_row (distances res) with
                 | Some drow => (λ x, VAtom (AFloat x)) <$> drow !! i
                 | None => Some (VAtom ANone)
                 end).
Proof.
  intros Hrs. split; [done|].
  rewrite storage_query_run in Hrs.
  destruct (coll_query (coll w) [query_text] top_k where_ where_document)
    as [results|e].
  - destruct (format_results results) as [rs'|e] eqn:Hf; simpl in Hrs.
    + injection Hrs as ->.
      destruct (format_results_returns _ _ Hf)
        as [->|(res & row & -> & Hfirst & Hlen & Hat)].
      { split; [constructor|by left]. }
      split.
      * apply Forall_lookup. intros i r Hi.
        by destruct (format_match_returns _ _ _ _ (Hat i r Hi)) as (? & _).
      * right. exists res, row. split; [done|]. split; [done|].
        split; [done|]. intros i r Hi.
        by destruct (format_match_returns _ _ _ _ (Hat i r Hi)) as (_ & ?).
    + injection Hrs as <-. split; [constructor|by left].
  - destruct (is_Exception e); simpl in Hrs; [|done].
    injection Hrs as <-. split; [constructor|by left].
Qed.


End Query.

(** ** The statements on the sample collaborators *)

Section Runs.
Import Sample.

(** The ids of a call with three texts. *)
Example generated_ids_three : generated_ids 3 = ["doc0"; "doc1"; "doc2"].
Proof. reflexivity. Qed.

(** The lookup table on the five extensions it knows and on others; the
    table is case-sensitive, so an upper-case override falls back. *)
Example split_type_of_extensions :
  split_type_of "txt" = "text" ∧ split_type_of "md" = "markdown"
  ∧ split_type_of "html" = "html" ∧ split_type_of "htm" = "html"
  ∧ split_type_of "json" = "json" ∧ split_type_of "pdf" = "text"
  ∧ split_type_of "" = "text" ∧ split_type_of "MD" = "text".
Proof. repeat split; reflexivity. Qed.

(** Without metadata storage pads every chunk with an empty mapping. *)
Example add_texts_without_metadata :
  calls (RAGEngine.add_texts ["a b"] None "text" empty_world).2
  = [CallAdd [TextChunk "a"; TextChunk "b"] [∅; ∅] ["doc0"; "doc1"]].
Proof. reflexivity. Qed.

(** An empty metadata list is falsy and counts as no metadata. *)
Example add_texts_empty_metadata_list :
  calls (RAGEngine.add_texts ["a b"] (Some []) "text" empty_world).2
  = [CallAdd [TextChunk "a"; TextChunk "b"] [∅; ∅] ["doc0"; "doc1"]].
Proof. reflexivity. Qed.

(** A text without chunks does not read its metadata entry. *)
Example add_texts_empty_text_needs_no_metadata :
  calls (RAGEngine.add_texts ["a"; ""] (Some [1]) "text" empty_world).2
  = [CallAdd [TextChunk "a"] [<["lang" := AStr "fr"]> ∅] ["doc0"]].
Proof. reflexivity. Qed.

(** A file that cannot be read: [add_file] raises after it has written
    to the caller's mapping, and stores nothing. *)
Example add_file_unreadable_file :
  let run := add_file "gone.txt" (Some 0) None empty_world in
  run.1 = Raises (LibraryError "FileNotFoundError" "gone.txt")
  ∧ calls run.2 = []
  ∧ (heap run.2 !!! 0) !! "source" = Some (AStr "gone.txt")
  ∧ (heap run.2 !!! 0) !! "file_type" = Some (AStr "txt")
  ∧ (heap run.2 !!! 0) !! "lang" = Some (AStr "en").
Proof. repeat split; reflexivity. Qed.

(** A plain-text file: two chunks, the same mapping on both. *)
Example add_file_plain_text :
  ∃ d, calls (add_file "notes.txt" (Some 0) None empty_world).2
       = [CallAdd [TextChunk "alpha"; TextChunk "beta"] [d; d]
            ["doc0"; "doc1"]]
       ∧ d !! "source" = Some (AStr "notes.txt")
       ∧ d !! "file_type" = Some (AStr "txt").
Proof. eexists. repeat split; reflexivity. Qed.

(** A query on the empty sample collection: the store raises, the caller
    gets the empty list and a printed line. *)
Example query_empty_collection :
  let run := RAGEngine.query "what" 5%Z None None empty_world in
  run.1 = Returns []
  ∧ calls run.2 = [CallQuery ["what"] 5%Z None None]
  ∧ length (stdout run.2) = 1.
Proof. repeat split; reflexivity. Qed.

(** An answer whose metadata row is shorter than its document row: the
    formatting raises inside the [try] and the matches are lost. *)
Example format_results_short_row :
  format_results
    (Some (mkQueryResult (Some [["alpha"; "beta"]]) (Some [[∅]]) None))
  = Raises (IndexError "list index out of range").
Proof. reflexivity. Qed.

(** An interpreter-exit signal is not an [Exception] and passes the
    handler. *)
Example try_except_lets_system_exit_pass :
  (try_except (raise (SystemExiting "KeyboardInterrupt" ""))
              (λ _, ret 0) empty_world).1
  = Raises (SystemExiting "KeyboardInterrupt" "").
Proof. reflexivity. Qed.

(** C1 as stated fails: two texts of one chunk each and a metadata list
    with one entry.  The loop reaches [metadatas[1]], raises [IndexError],
    and nothing reaches storage. *)
Lemma add_texts_short_metadata_raises :
  split_one "text" "a" = Returns [TextChunk "a"]
  ∧ split_one "text" "b" = Returns [TextChunk "b"]
  ∧ RAGEngine.add_texts ["a"; "b"] (Some [0]) "text" empty_world
    = (Raises (IndexError "list index out of range"), empty_world).
Proof. repeat split; reflexivity. Qed.

Lemma add_texts_replicates_metadata_witness :
  let texts := ["a b"; "c"] in
  let css := [[TextChunk "a"; TextChunk "b"]; [TextChunk "c"]] in
  texts ≠ [] ∧ (length texts ≤ length [0; 1])
  ∧ Forall2 (λ text cs, split_one "text" text = Returns cs) texts css
  ∧ calls (RAGEngine.add_texts texts (Some [0; 1]) "text" empty_world).2
    = [CallAdd [TextChunk "a"; TextChunk "b"; TextChunk "c"]
         (replicated css ((λ l, heap empty_world !!! l) <$> [0; 1]))
         ["doc0"; "doc1"; "doc2"]].
Proof.
  intros texts css.
  assert (texts ≠ []) as Hne by done.
  assert (length texts ≤ length [0; 1]) as Hlen by (simpl; lia).
  assert (Forall2 (λ text cs, split_one "text" text = Returns cs) texts css)
    as Hall by (repeat constructor).
  split; [done|]. split; [done|]. split; [done|].
  destruct (add_texts_replicates_metadata texts [0; 1] "text" css
              empty_world Hne Hlen Hall) as (_ & _ & _ & Hcalls).
  by apply Hcalls.
Defined.

Lemma add_texts_unsupported_split_type_witness :
  ["a b"] ≠ [] ∧ ("pdf" ∉ split_types)
  ∧ RAGEngine.add_texts ["a b"] (Some [0]) "pdf" empty_world
    = (Raises (ValueError "Unsupported split_type: pdf"), empty_world).
Proof.
  assert (["a b"] ≠ []) as Hne by done.
  assert ("pdf" ∉ split_types) as Hout.
  { unfold split_types. intros Hin.
    repeat (apply elem_of_cons in Hin as [Hin|Hin]; [discriminate Hin|]).
    by apply elem_of_nil in Hin. }
  split; [done|]. split; [done|].
  exact (add_texts_unsupported_split_type ["a b"] (Some [0]) "pdf"
           empty_world Hne Hout).
Defined.

Lemma storage_add_texts_ids_restart_witness :
  [TextChunk "a"; TextChunk "b"] ≠ [] ∧ [TextChunk "c"] ≠ []
  ∧ ∃ metas1 metas2 ids1 ids2,
      calls (ChromaStorage.add_texts [TextChunk "c"] None None
               (ChromaStorage.add_texts [TextChunk "a"; TextChunk "b"] None None
                  empty_world).2).2
      = [CallAdd [TextChunk "a"; TextChunk "b"] metas1 ids1;
         CallAdd [TextChunk "c"] metas2 ids2]
      ∧ "doc0" ∈ ids1 ∧ "doc0" ∈ ids2.
Proof.
  assert ([TextChunk "a"; TextChunk "b"] ≠ []) as Hne1 by done.
  assert ([TextChunk "c"] ≠ []) as Hne2 by done.
  split; [done|]. split; [done|].
  destruct (storage_add_texts_ids_restart [TextChunk "a"; TextChunk "b"]
              [TextChunk "c"] None None empty_world Hne1 Hne2)
    as (metas1 & metas2 & ids1 & ids2 & Hcalls & _ & _ & _ & _ & _ & H1 & H2).
  by exists metas1, metas2, ids1, ids2.
Defined.



Lemma query_matches_keep_store_order_witness :
  ∃ r0 r1,
    (ChromaStorage.query "what" 5%Z None None stocked_world).1 = Returns [r0; r1]
    ∧ dom r0 = ({["text"; "metadata"; "distance"]} : gset string)
    ∧ r0 !! "text" = Some (VAtom (AStr "alpha"))
    ∧ r1 !! "text" = Some (VAtom (AStr "beta"))
    ∧ r0 !! "metadata" = Some (VDict (<["lang" := AStr "en"]> ∅))
    ∧ r1 !! "metadata" = Some (VDict ∅).
Proof.
  eexists _, _.
  assert ((ChromaStorage.query "what" 5%Z None None stocked_world).1
          = Returns [_; _]) as Hrs by reflexivity.
  split; [exact Hrs|].
  destruct (query_matches_keep_store_order "what" 5%Z None None
              stocked_world _ Hrs)
    as (_ & Hkeys & [Hnil|(res & row & Hanswer & Hfirst & _ & Hat)]);
    [discriminate Hnil|].
  injection Hanswer as <-. injection Hfirst as <-.
  destruct (Hat 0 _ eq_refl) as (_ & Ht0 & Hm0 & _).
  destruct (Hat 1 _ eq_refl) as (_ & Ht1 & Hm1 & _).
  split; [by apply Forall_cons in Hkeys as [? _]|].
  repeat split; done.
Defined.

End Runs.

(** ** More on [ChromaStorage.add_texts] *)

Section StorageAdd.
Context {Coll : Type} `{!VectorStore Coll}.

(** New empty mappings read as empty, and with none to make the heap is
    the same. *)
Lemma alloc_empty_values (n : nat) (w : World Coll) :
  ∃ ls h,
    alloc_empty n w = (Returns ls, mkWorld h (coll w) (calls w) (stdout w))
    ∧ length ls = n
    ∧ (λ l, h !!! l) <$> ls = replicate n ∅
    ∧ (∀ l d, heap w !! l = Some d → h !! l = Some d)
    ∧ (n = 0 → h = heap w).
Proof.
  destruct n as [|n].
  { exists [], (heap w). by destruct w. }
  destruct (alloc_empty_frame (S n) w) as (ls & h & Hrun & Hlen & Hkeep & Hnew).
  exists ls, h. repeat split; try done.
  rewrite <- Hlen. clear Hrun Hlen.
  induction Hnew as [|l ls Hl _ IH]; [done|].
  rewrite fmap_cons, IH, (lookup_total_correct _ _ _ Hl). done.
Qed.

Lemma deref_kept (h1 h2 : gmap loc dict) (ms : list loc) :
  Forall (λ l, is_Some (h1 !! l)) ms →
  (∀ l d, h1 !! l = Some d → h2 !! l = Some d) →
  (λ l, h2 !!! l) <$> ms = (λ l, h1 !!! l) <$> ms.
Proof.
  intros Hin Hkeep. induction Hin as [|l ms [d Hd] _ IH]; [done|].
  by rewrite !fmap_cons, IH, (lookup_total_correct _ _ _ Hd),
    (lookup_total_correct _ _ _ (Hkeep _ _ Hd)).
Qed.

(** [ChromaStorage.add_texts] on a non-empty list is one [add] call, after
    the padding mappings have been made. *)
Lemma storage_add_texts_run (texts : list chunk)
    (metadatas : option (list loc)) (ids : option (list string))
    (w : World Coll) :
  texts ≠ [] →
  ∃ h refs,
    ChromaStorage.add_texts texts metadatas ids w
    = collection_add texts refs
        (default (generated_ids (length texts)) ids)
        (mkWorld h (coll w) (calls w) (stdout w))
    ∧ length refs = length texts `max` from_option length 0 metadatas
    ∧ ((∀ ms, metadatas = Some ms → length ms < length texts →
              Forall (λ l, is_Some (heap w !! l)) ms) →
       (λ l, h !!! l) <$> refs
       = forwarded_metadata w (length texts) metadatas)
    ∧ (∀ l d, heap w !! l = Some d → h !! l = Some d)
    ∧ (∀ ms, metadatas = Some ms → length texts ≤ length ms → h = heap w).
Proof.
  intros Hne. destruct texts as [|c texts]; [done|].
  unfold ChromaStorage.add_texts. set (n := length (c :: texts)).
  assert (match ids with
          | Some ids0 => ids0
          | None => generated_ids n
          end = default (generated_ids n) ids) as -> by by destruct ids.
  destruct metadatas as [ms|].
  - case_bool_decide as Hlen.
    + destruct (alloc_empty_values (n - length ms) w)
        as (ls & h & Hrun & Hpad & Hvals & Hkeep & Hzero).
      exists h, (ms ++ ls). unfold bind at 1 2. rewrite Hrun.
      split; [done|]. split; [rewrite length_app, Hpad; cbn [from_option]; lia|].
      split; [|split; [done|]].
      * intros Hrefs. rewrite fmap_app, Hvals.
        destruct (decide (length ms < n)) as [Hlt|Hge].
        -- by rewrite (deref_kept (heap w) h ms (Hrefs ms eq_refl Hlt) Hkeep).
        -- rewrite Hzero by lia. done.
      * intros ms' [= <-] Hle. apply Hzero. lia.
    + exists (heap w), ms. split; [by destruct w|].
      split; [cbn [from_option]; lia|]. split; [|done].
      intros _. unfold forwarded_metadata. fold n.
      rewrite Hlen, Nat.sub_diag. simpl. by rewrite app_nil_r.
  - destruct (alloc_empty_values n w)
      as (ls & h & Hrun & Hpad & Hvals & Hkeep & _).
    exists h, ls. unfold bind at 1. rewrite Hrun.
    split; [done|]. split; [cbn [from_option]; lia|]. done.
Qed.

Lemma storage_add_texts_calls (texts : list chunk)
    (metadatas : option (list loc)) (ids : option (list string))
    (w : World Coll) :
  texts ≠ [] →
  (∀ ms, metadatas = Some ms → length ms < length texts →
         Forall (λ l, is_Some (heap w !! l)) ms) →
  calls (ChromaStorage.add_texts texts metadatas ids w).2
  = calls w ++ [CallAdd texts
                  (forwarded_metadata w (length texts) metadatas)
                  (default (generated_ids (length texts)) ids)].
Proof.
  intros Hne Hrefs.
  destruct (storage_add_texts_run texts metadatas ids w Hne)
    as (h & refs & -> & _ & Hvals & _).
  destruct (collection_add_world texts refs
              (default (generated_ids (length texts)) ids)
              (mkWorld h (coll w) (calls w) (stdout w))) as (_ & -> & _).
  simpl. by rewrite Hvals.
Qed.

(** X1. Without metadata [ChromaStorage.add_texts] sends the store one
    empty mapping per text. *)
Theorem storage_add_texts_without_metadata (texts : list chunk)
    (ids : option (list string)) (w : World Coll) :
  texts ≠ [] →
  calls (ChromaStorage.add_texts texts None ids w).2
  = calls w ++ [CallAdd texts (replicate (length texts) ∅)
                  (default (generated_ids (length texts)) ids)].
Proof.
  intros Hne. by rewrite storage_add_texts_calls.
Qed.

(** X2. A metadata list shorter than the texts is padded at its end with
    empty mappings up to one mapping per text; the mappings given keep
    their positions. *)
Theorem storage_add_texts_pads_short_metadata (texts : list chunk)
    (ms : list loc) (ids : option (list string)) (w : World Coll) :
  length ms < length texts →
  Forall (λ l, is_Some (heap w !! l)) ms →
  calls (ChromaStorage.add_texts texts (Some ms) ids w).2
  = calls w ++ [CallAdd texts
                  (((λ l, heap w !!! l) <$> ms)
                   ++ replicate (length texts - length ms) ∅)
                  (default (generated_ids (length texts)) ids)].
Proof.
  intros Hlt Hrefs.
  assert (texts ≠ []) as Hne by (destruct texts; [simpl in Hlt; lia|done]).
  rewrite storage_add_texts_calls; [done|done|].
  by intros ms' [= <-] _.
Qed.

(** X3. A metadata list with at least one entry per text is sent as it is:
    a longer list is not cut to the number of texts, and no object is made
    or changed. *)
Theorem storage_add_texts_keeps_long_metadata (texts : list chunk)
    (ms : list loc) (ids : option (list string)) (w : World Coll) :
  texts ≠ [] → length texts ≤ length ms →
  let w' := (ChromaStorage.add_texts texts (Some ms) ids w).2 in
  calls w' = calls w ++ [CallAdd texts ((λ l, heap w !!! l) <$> ms)
                           (default (generated_ids (length texts)) ids)]
  ∧ heap w' = heap w.
Proof.
  intros Hne Hle w'. split.
  - unfold w'. rewrite storage_add_texts_calls; [|done|intros ms' [= <-]; lia].
    unfold forwarded_metadata.
    replace (length texts - length ms) with 0 by lia.
    simpl. by rewrite app_nil_r.
  - unfold w'.
    destruct (storage_add_texts_run texts (Some ms) ids w Hne)
      as (h & refs & -> & _ & _ & _ & Hsame).
    destruct (collection_add_world texts refs
                (default (generated_ids (length texts)) ids)
                (mkWorld h (coll w) (calls w) (stdout w))) as (-> & _).
    simpl. by apply (Hsame ms).
Qed.

(** X4. For a non-empty list of texts [ChromaStorage.add_texts] makes
    exactly one [add] call: the texts as they are, the ids given (the
    generated ones when none are given) whatever their number, and never
    fewer mappings than texts; nothing is printed. *)
Theorem storage_add_texts_one_call (texts : list chunk)
    (metadatas : option (list loc)) (ids : option (list string))
    (w : World Coll) :
  texts ≠ [] →
  let w' := (ChromaStorage.add_texts texts metadatas ids w).2 in
  (∃ metas,
     calls w' = calls w ++ [CallAdd texts metas
                              (default (generated_ids (length texts)) ids)]
     ∧ length metas = length texts `max` from_option length 0 metadatas)
  ∧ stdout w' = stdout w.
Proof.
  intros Hne w'. unfold w'.
  destruct (storage_add_texts_run texts metadatas ids w Hne)
    as (h & refs & -> & Hlen & _).
  destruct (collection_add_world texts refs
              (default (generated_ids (length texts)) ids)
              (mkWorld h (coll w) (calls w) (stdout w))) as (_ & -> & ->).
  split; [|done]. eexists. split; [done|]. by rewrite length_fmap.
Qed.


(** X6. The ids generated for one call are pairwise distinct. *)
Theorem generated_ids_distinct (n : nat) : NoDup (generated_ids n).
Proof.
  unfold generated_ids. apply NoDup_fmap_2; [|apply NoDup_seq].
  intros i j Heq. simplify_eq/=. by apply (inj pretty).
Qed.
End StorageAdd.

(** ** More on [ChromaStorage.query] and [get_collection_info] *)

Section QueryMore.
Context {Coll : Type} `{!VectorStore Coll}.

Lemma format_match_raises_index (results : QueryResult) (row : list string)
    (i : nat) (e : exn) :
  format_match results row i = Raises e →
  e = IndexError "list index out of range".
Proof.
  unfold format_match, index. intros He.
  repeat (case_match; simplify_eq/=); done.
Qed.

Lemma format_from_raises_index (results : QueryResult) (row : list string)
    (n i : nat) (acc : list result) (e : exn) :
  format_from results row i n acc = Raises e →
  e = IndexError "list index out of range".
Proof.
  revert i acc. induction n as [|n IH]; intros i acc He; simpl in He; [done|].
  destruct (format_match results row i) as [r|e'] eqn:Hr; simpl in He.
  - by apply (IH _ _ He).
  - injection He as <-. by apply (format_match_raises_index _ _ _ _ Hr).
Qed.

(** A position that every row sent covers formats to a match. *)
Lemma format_match_in_range (results : QueryResult) (row : list string)
    (i : nat) :
  i < length row →
  (∀ mrow, first_row (metadatas results) = Some mrow → i < length mrow) →
  (∀ drow, first_row (distances results) = Some drow → i < length drow) →
  ∃ r, format_match results row i = Returns r.
Proof.
  intros Hrow Hm Hd. unfold format_match.
  destruct (lookup_lt_is_Some_2 row i Hrow) as [d Hd0].
  rewrite (index_lookup _ _ _ Hd0). simpl.
  assert (∃ m, (if truthy (metadatas results)
                then ms ← index (default [] (metadatas results)) 0;
                     VDict <$> index ms i
                else Returns (VDict ∅)) = Returns m) as [m ->].
  { destruct (truthy (metadatas results)) eqn:Ht; [|by eexists].
    destruct (truthy_first_row _ Ht) as (mrow & Hfirst & ->). simpl.
    destruct (lookup_lt_is_Some_2 mrow i (Hm _ Hfirst)) as [m Hmi].
    rewrite (index_lookup _ _ _ Hmi). by eexists. }
  simpl.
  assert (∃ x, (if truthy (distances results)
                then ds ← index (default [] (distances results)) 0;
                     (λ x, VAtom (AFloat x)) <$> index ds i
                else Returns (VAtom ANone)) = Returns x) as [x ->].
  { destruct (truthy (distances results)) eqn:Ht; [|by eexists].
    destruct (truthy_first_row _ Ht) as (drow & Hfirst & ->). simpl.
    destruct (lookup_lt_is_Some_2 drow i (Hd _ Hfirst)) as [x Hxi].
    rewrite (index_lookup _ _ _ Hxi). by eexists. }
  simpl. by eexists.
Qed.

(** When every position formats, the loop returns one match each. *)
Lemma format_from_total (results : QueryResult) (row : list string)
    (n i : nat) (acc : list result) :
  (∀ j, i ≤ j < i + n → ∃ r, format_match results row j = Returns r) →
  ∃ out, format_from results row i n acc = Returns out
         ∧ length out = length acc + n.
Proof.
  revert i acc. induction n as [|n IH]; intros i acc Hall; simpl.
  - exists acc. split; [done|lia].
  - destruct (Hall i) as [r ->]; [lia|]. simpl.
    destruct (IH (S i) (acc ++ [r])) as (out & -> & Hlen).
    { intros j Hj. apply Hall. lia. }
    exists out. split; [done|]. rewrite Hlen, length_app. simpl. lia.
Qed.

(** The loop on positions that each format to a known match. *)
Lemma format_from_map (results : QueryResult) (row : list string)
    (g : nat → result) (n i : nat) (acc : list result) :
  (∀ j, i ≤ j < i + n → format_match results row j = Returns (g j)) →
  format_from results row i n acc = Returns (acc ++ (g <$> seq i n)).
Proof.
  revert i acc. induction n as [|n IH]; intros i acc Hall; simpl.
  - by rewrite app_nil_r.
  - rewrite (Hall i) by lia. simpl.
    rewrite IH by (intros j Hj; apply Hall; lia).
    by rewrite <- app_assoc.
Qed.

(** X7. [ChromaStorage.query] lets no [Exception] out: it returns a list,
    or raises what the store raised when that is an interpreter-exit signal
    outside [Exception]; an error while formatting the answer is caught
    like a store failure. *)
Theorem query_raises_only_what_passes_the_handler (query_text : string)
    (top_k : Z) (where_ where_document : option dict) (w : World Coll) :
  match (ChromaStorage.query query_text top_k where_ where_document w).1 with
  | Returns _ => True
  | Raises e =>
      is_Exception e = false
      ∧ coll_query (coll w) [query_text] top_k where_ where_document
        = Raises e
  end.
Proof.
  rewrite storage_query_run.
  destruct (coll_query (coll w) [query_text] top_k where_ where_document)
    as [results|e].
  - by destruct (format_results results).
  - by destruct (is_Exception e) eqn:He.
Qed.

(** X8. When the store's first metadata row or first distance row is
    shorter than its first row of documents, [ChromaStorage.query] returns
    no match at all, the documents that have their entries included, and
    prints the index error. *)
Theorem query_short_row_loses_all_matches (query_text : string) (top_k : Z)
    (where_ where_document : option dict) (w : World Coll)
    (res : QueryResult) (row : list string) :
  coll_query (coll w) [query_text] top_k where_ where_document
  = Returns (Some res) →
  first_row (documents res) = Some row →
  (∃ mrow, first_row (metadatas res) = Some mrow ∧ length mrow < length row)
  ∨ (∃ drow, first_row (distances res) = Some drow
             ∧ length drow < length row) →
  ChromaStorage.query query_text top_k where_ where_document w
  = (Returns [],
     mkWorld (heap w) (coll w)
       (calls w ++ [CallQuery [query_text] top_k where_ where_document])
       (stdout w ++ ["Error querying collection: list index out of range"])).
Proof.
  intros Hanswer Hrow Hshort. rewrite storage_query_run, Hanswer.
  destruct (format_results (Some res)) as [rs|e] eqn:Hf.
  - exfalso.
    destruct (format_results_returns _ _ Hf)
      as [->|(res' & row' & [= <-] & Hrow' & Hlen & Hat)].
    + unfold format_results in Hf.
      destruct (documents res) as [[|row0 rest]|]; try done.
      simpl in Hrow, Hf. injection Hrow as ->.
      destruct (format_from_returns _ _ _ _ _ _ Hf) as (new & Hnew & Hn & _).
      destruct new; [|done]. simpl in Hn.
      destruct Hshort as [(? & _ & ?)|(? & _ & ?)]; lia.
    + rewrite Hrow in Hrow'. injection Hrow' as <-.
      destruct Hshort as [(mrow & Hm & Hlt)|(drow & Hd & Hlt)].
      * destruct (lookup_lt_is_Some_2 rs (length mrow)) as [r Hr]; [lia|].
        destruct (format_match_returns _ _ _ _ (Hat _ _ Hr))
          as (Hdom & _ & _ & Hmeta & _).
        rewrite Hm, (lookup_ge_None_2 mrow (length mrow)) in Hmeta by lia.
        apply not_elem_of_dom in Hmeta. rewrite Hdom in Hmeta.
        clear -Hmeta. set_solver.
      * destruct (lookup_lt_is_Some_2 rs (length drow)) as [r Hr]; [lia|].
        destruct (format_match_returns _ _ _ _ (Hat _ _ Hr))
          as (Hdom & _ & _ & _ & Hdist).
        rewrite Hd, (lookup_ge_None_2 drow (length drow)) in Hdist by lia.
        apply not_elem_of_dom in Hdist. rewrite Hdom in Hdist.
        clear -Hdist. set_solver.
  - unfold format_results in Hf.
    destruct (documents res) as [[|row0 rest]|]; try done. simpl in Hf.
    by rewrite (format_from_raises_index _ _ _ _ _ _ Hf).
Qed.

(** X9. When the store's first metadata row and first distance row, where
    sent, are at least as long as its first row of documents,
    [ChromaStorage.query] returns one match per document and prints
    nothing. *)
Theorem query_returns_every_match (query_text : string) (top_k : Z)
    (where_ where_document : option dict) (w : World Coll)
    (res : QueryResult) (row : list string) :
  coll_query (coll w) [query_text] top_k where_ where_document
  = Returns (Some res) →
  first_row (documents res) = Some row →
  (∀ mrow, first_row (metadatas res) = Some mrow →
           length row ≤ length mrow) →
  (∀ drow, first_row (distances res) = Some drow →
           length row ≤ length drow) →
  ∃ rs,
    ChromaStorage.query query_text top_k where_ where_document w
    = (Returns rs,
       mkWorld (heap w) (coll w)
         (calls w ++ [CallQuery [query_text] top_k where_ where_document])
         (stdout w))
    ∧ length rs = length row.
Proof.
  intros Hanswer Hrow Hm Hd. rewrite storage_query_run, Hanswer.
  unfold format_results.
  destruct (documents res) as [[|row0 rest]|]; try done.
  simpl in Hrow. injection Hrow as ->. simpl.
  destruct (format_from_total res row (length row) 0 []) as (out & -> & Hlen).
  { intros j Hj. apply format_match_in_range; [lia| |].
    - intros mrow Hfirst. specialize (Hm mrow Hfirst). lia.
    - intros drow Hfirst. specialize (Hd drow Hfirst). lia. }
  exists out. split; [done|]. simpl in Hlen. lia.
Qed.

(** X10. When the store sends documents without metadata and without
    distances, every match carries an empty metadata mapping and the
    distance [None], in the order of the documents. *)
Theorem query_documents_only (query_text : string) (top_k : Z)
    (where_ where_document : option dict) (w : World Coll)
    (res : QueryResult) (row : list string) :
  coll_query (coll w) [query_text] top_k where_ where_document
  = Returns (Some res) →
  first_row (documents res) = Some row →
  truthy (metadatas res) = false → truthy (distances res) = false →
  (ChromaStorage.query query_text top_k where_ where_document w).1
  = Returns ((λ d, <["distance" := VAtom ANone]>
                    (<["metadata" := VDict ∅]>
                     (<["text" := VAtom (AStr d)]> ∅))) <$> row).
Proof.
  intros Hanswer Hrow Hm Hd. rewrite storage_query_run, Hanswer.
  unfold format_results.
  destruct (documents res) as [[|row0 rest]|]; try done.
  simpl in Hrow. injection Hrow as ->. simpl.
  set (f := λ d : string, <["distance" := VAtom ANone]>
                           (<["metadata" := VDict ∅]>
                            (<["text" := VAtom (AStr d)]> (∅ : result)))).
  rewrite (format_from_map res row (λ j, f (default "" (row !! j)))).
  - simpl. f_equal. apply list_eq. intros j.
    rewrite !list_lookup_fmap.
    destruct (decide (j < length row)) as [Hlt|Hge].
    + rewrite lookup_seq_lt by done. simpl.
      by destruct (lookup_lt_is_Some_2 row j Hlt) as [d ->].
    + rewrite lookup_seq_ge, lookup_ge_None_2 by lia. done.
  - intros j Hj. unfold format_match. rewrite Hm, Hd.
    destruct (lookup_lt_is_Some_2 row j) as [d Hdj]; [lia|].
    rewrite (index_lookup _ _ _ Hdj), Hdj. reflexivity.
Qed.

(** X11. [ChromaStorage.query] asks the collection once, with the query
    text as the only query text and the count and filters as given; it
    changes neither the collection nor any mapping, and prints at most one
    line. *)
Theorem query_reads_only (query_text : string) (top_k : Z)
    (where_ where_document : option dict) (w : World Coll) :
  let w' := (ChromaStorage.query query_text top_k where_ where_document w).2 in
  heap w' = heap w ∧ coll w' = coll w
  ∧ calls w' = calls w ++ [CallQuery [query_text] top_k where_ where_document]
  ∧ (stdout w' = stdout w ∨ ∃ line, stdout w' = stdout w ++ [line]).
Proof.
  intros w'. unfold w'. rewrite storage_query_run.
  destruct (coll_query (coll w) [query_text] top_k where_ where_document)
    as [results|e].
  - destruct (format_results results); simpl; eauto 10.
  - destruct (is_Exception e); simpl; eauto 10.
Qed.

(** X12. [get_collection_info] asks for the name first and for the count
    only when the name came back; it changes neither the collection nor
    any mapping, and when both come back it returns them under name and
    count and prints nothing. *)
Theorem get_collection_info_asks_name_then_count (w : World Coll) :
  let run := get_collection_info w in
  heap run.2 = heap w ∧ coll run.2 = coll w
  ∧ calls run.2
    = calls w ++ CallName :: match coll_name (coll w) with
                             | Returns _ => [CallCount]
                             | Raises _ => []
                             end
  ∧ ∀ name count,
      coll_name (coll w) = Returns name →
      coll_count (coll w) = Returns count →
      run.1 = Returns (<["count" := VAtom (AInt count)]>
                       (<["name" := VAtom (AStr name)]> ∅))
      ∧ stdout run.2 = stdout w.
Proof.
  unfold get_collection_info, try_except, bind, collection_name,
    collection_count, print, ret. simpl.
  destruct (coll_name (coll w)) as [name|e]; simpl.
  - destruct (coll_count (coll w)) as [count|e]; simpl.
    + rewrite <- app_assoc. split; [done|]. split; [done|]. split; [done|].
      by intros ?? [= <-] [= <-].
    + destruct (is_Exception e); simpl; rewrite <- ?app_assoc;
        (split; [done|]; split; [done|]; split; [done|]); by intros.
  - destruct (is_Exception e); simpl;
      (split; [done|]; split; [done|]; split; [done|]); by intros.
Qed.
End QueryMore.

(** ** More on [RAGEngine.add_texts] and [TextSplitter.split_texts] *)

Section AddTextsMore.
Context {Coll : Type} `{!VectorStore Coll, !Splitters, !Runtime}.

(** The extending loop stops at the first text whose splitting raises. *)
Lemma extend_each_raises (f : string → outcome (list chunk))
    (pre post : list string) (text : string) (acc : list chunk) (e : exn) :
  Forall (λ t, ∃ cs, f t = Returns cs) pre →
  f text = Raises e →
  extend_each f (pre ++ text :: post) acc = Raises e.
Proof.
  intros Hpre Hraise. revert acc.
  induction Hpre as [|t pre [cs Hcs] _ IH]; intros acc; simpl.
  - by rewrite Hraise.
  - rewrite Hcs. simpl. apply IH.
Qed.

(** The replication loop when only texts with a chunk need their entry. *)
Lemma replicate_metadata_chunkless (split_type : string)
    (metadatas : list loc) (texts : list string)
    (css : list (list chunk)) (i : nat) (acc : list loc) :
  Forall2 (λ text cs, split_one split_type text = Returns cs) texts css →
  (∀ j cs, css !! j = Some cs → cs ≠ [] → i + j < length metadatas) →
  replicate_metadata split_type metadatas i texts acc
  = Returns (acc ++ replicated css (drop i metadatas)).
Proof.
  intros Hall. revert i acc.
  induction Hall as [|text cs texts css Hs _ IH]; intros i acc Hneed; simpl.
  - unfold replicated. simpl. by rewrite app_nil_r.
  - rewrite Hs. simpl.
    assert (∀ j cs', css !! j = Some cs' → cs' ≠ [] →
                     S i + j < length metadatas) as Hrest.
    { intros j cs' Hj Hne. specialize (Hneed (S j) cs' Hj Hne). lia. }
    destruct cs as [|c cs].
    + simpl. rewrite IH by done. f_equal. f_equal. unfold replicated.
      destruct (drop i metadatas) as [|m rest] eqn:Hdrop.
      * assert (drop (S i) metadatas = []) as ->; [|by destruct css].
        apply drop_ge. apply (f_equal length) in Hdrop.
        rewrite length_drop in Hdrop. simpl in Hdrop. lia.
      * assert (drop (S i) metadatas = rest) as ->; [|done].
        replace (S i) with (i + 1) by lia.
        by rewrite <- (drop_drop metadatas 1 i), Hdrop.
    + destruct (lookup_lt_is_Some_2 metadatas i) as [m Hm].
      { specialize (Hneed 0 (c :: cs) eq_refl ltac:(done)). lia. }
      rewrite (append_each_replicate _ _ m _ _ Hm). simpl.
      rewrite IH by done.
      rewrite (drop_S _ _ _ Hm). unfold replicated. simpl.
      by rewrite <- app_assoc.
Qed.

(** The replication loop when a text with a chunk has no entry. *)
Lemma replicate_metadata_missing (split_type : string)
    (metadatas : list loc) (texts : list string)
    (css : list (list chunk)) (i : nat) (acc : list loc) :
  Forall2 (λ text cs, split_one split_type text = Returns cs) texts css →
  (∃ j cs, css !! j = Some cs ∧ cs ≠ [] ∧ length metadatas ≤ i + j) →
  replicate_metadata split_type metadatas i texts acc
  = Raises (IndexError "list index out of range").
Proof.
  intros Hall. revert i acc.
  induction Hall as [|text cs texts css Hs _ IH];
    intros i acc (j & cs' & Hj & Hne & Hle); [done|].
  simpl. rewrite Hs. simpl.
  destruct cs as [|c cs].
  - simpl. destruct j as [|j]; [by injection Hj as <-|].
    apply IH. exists j, cs'. simpl in Hj. repeat split; [done|done|lia].
  - destruct (decide (length metadatas ≤ i)) as [Hout|Hin].
    + by rewrite append_each_missing.
    + destruct (lookup_lt_is_Some_2 metadatas i) as [m Hm]; [lia|].
      rewrite (append_each_replicate _ _ m _ _ Hm). simpl.
      destruct j as [|j]; [lia|].
      apply IH. exists j, cs'. simpl in Hj. repeat split; [done|done|lia].
Qed.

(** X13. Without metadata, which an empty metadata list counts as,
    [RAGEngine.add_texts] stores every chunk with an empty mapping. *)
Theorem add_texts_without_metadata_stores_empty (texts : list string)
    (metadatas : option (list loc)) (split_type : string)
    (css : list (list chunk)) (w : World Coll) :
  metadatas = None ∨ metadatas = Some [] →
  texts ≠ [] →
  Forall2 (λ text cs, split_one split_type text = Returns cs) texts css →
  concat css ≠ [] →
  calls (RAGEngine.add_texts texts metadatas split_type w).2
  = calls w ++ [CallAdd (concat css)
                  (replicate (length (concat css)) ∅)
                  (generated_ids (length (concat css)))].
Proof.
  intros Hnone Hne Hall Hsome.
  assert (RAGEngine.add_texts texts metadatas split_type w
          = ChromaStorage.add_texts (concat css) None None w) as ->.
  { unfold RAGEngine.add_texts. destruct texts as [|text texts]; [done|].
    rewrite (split_all_concat split_type (text :: texts) css) by done.
    by destruct Hnone as [-> | ->]. }
  by rewrite storage_add_texts_calls.
Qed.

(** X14. With a non-empty metadata list, [RAGEngine.add_texts] raises
    [IndexError] and stores nothing as soon as one text that has a chunk
    stands at a position the metadata list does not reach. *)
Theorem add_texts_missing_metadata_raises (texts : list string)
    (ms : list loc) (split_type : string) (css : list (list chunk))
    (w : World Coll) :
  ms ≠ [] →
  Forall2 (λ text cs, split_one split_type text = Returns cs) texts css →
  (∃ j cs, css !! j = Some cs ∧ cs ≠ [] ∧ length ms ≤ j) →
  RAGEngine.add_texts texts (Some ms) split_type w
  = (Raises (IndexError "list index out of range"), w).
Proof.
  intros Hms Hall Hmiss.
  assert (texts ≠ []) as Hne.
  { destruct Hmiss as (j & cs & Hj & _). intros ->.
    apply Forall2_nil_inv_l in Hall as ->. done. }
  unfold RAGEngine.add_texts. destruct texts as [|text texts]; [done|].
  rewrite (split_all_concat split_type (text :: texts) css) by done.
  destruct ms as [|m ms]; [done|]. cbn [truthy default].
  change (id (m :: ms)) with (m :: ms).
  by rewrite (replicate_metadata_missing split_type (m :: ms)
                (text :: texts) css 0 []).
Qed.

(** X15. A text without chunks needs no metadata entry: when every text
    that has a chunk stands at a position the non-empty metadata list
    reaches, [RAGEngine.add_texts] hands storage the chunks with their
    texts' metadata replicated, as many references as chunks. *)
Theorem add_texts_chunkless_texts_need_no_metadata (texts : list string)
    (ms : list loc) (split_type : string) (css : list (list chunk))
    (w : World Coll) :
  texts ≠ [] → ms ≠ [] →
  Forall2 (λ text cs, split_one split_type text = Returns cs) texts css →
  (∀ j cs, css !! j = Some cs → cs ≠ [] → j < length ms) →
  RAGEngine.add_texts texts (Some ms) split_type w
  = ChromaStorage.add_texts (concat css) (Some (replicated css ms)) None w
  ∧ length (replicated css ms) = length (concat css).
Proof.
  intros Hne Hms Hall Hneed. split.
  - unfold RAGEngine.add_texts. destruct texts as [|text texts]; [done|].
    rewrite (split_all_concat split_type (text :: texts) css) by done.
    destruct ms as [|m ms]; [done|]. cbn [truthy default].
    change (id (m :: ms)) with (m :: ms).
    by rewrite (replicate_metadata_chunkless split_type (m :: ms)
                  (text :: texts) css 0 []).
  - clear Hall Hne Hms. unfold replicated. revert ms Hneed.
    induction css as [|cs css IH]; intros ms Hneed; [done|].
    destruct ms as [|m ms]; simpl.
    + destruct cs as [|c cs].
      * simpl. rewrite <- (IH []); [by destruct css|].
        intros j cs' Hj Hcs'. specialize (Hneed (S j) cs' Hj Hcs').
        simpl in Hneed. lia.
      * specialize (Hneed 0 (c :: cs) eq_refl). simpl in Hneed.
        exfalso. assert (c :: cs ≠ []) as Hc by done.
        specialize (Hneed Hc). lia.
    + rewrite !length_app, length_replicate, IH; [done|].
      intros j cs' Hj Hcs'. specialize (Hneed (S j) cs' Hj Hcs').
      simpl in Hneed. lia.
Qed.

(** X16. All or nothing: when the splitter raises on one text, the texts
    before it having split, [RAGEngine.add_texts] raises that exception
    and stores no chunk of any text. *)
Theorem add_texts_splitter_failure_stores_nothing (pre post : list string)
    (text : string) (metadatas : option (list loc)) (split_type : string)
    (e : exn) (w : World Coll) :
  split_type ∈ split_types →
  Forall (λ t, ∃ cs, split_one split_type t = Returns cs) pre →
  split_one split_type text = Raises e →
  RAGEngine.add_texts (pre ++ text :: post) metadatas split_type w
  = (Raises e, w).
Proof.
  intros Htag Hpre Hraise.
  assert (split_all split_type (pre ++ text :: post) = Raises e) as Hall.
  { unfold split_types in Htag.
    rewrite !elem_of_cons, elem_of_nil in Htag.
    destruct Htag as [->|[->|[->|[->|[]]]]].
    - exact (extend_each_raises split_text pre post text [] e Hpre Hraise).
    - exact (extend_each_raises split_markdown pre post text [] e Hpre
               Hraise).
    - exact (extend_each_raises split_html_semantic pre post text [] e Hpre
               Hraise).
    - exact (extend_each_raises (λ t, split_json t false) pre post text [] e
               Hpre Hraise). }
  unfold RAGEngine.add_texts.
  destruct (pre ++ text :: post) as [|t ts] eqn:Hts.
  { by destruct pre. }
  unfold bind, lift. by rewrite Hall.
Qed.

(** X17. [RAGEngine.add_texts] calls the collection at most once, and then
    with [add], the generated ids and never fewer mappings than chunks; it
    prints nothing and keeps every mapping object that exists. *)
Theorem add_texts_at_most_one_add (texts : list string)
    (metadatas : option (list loc)) (split_type : string) (w : World Coll) :
  let w' := (RAGEngine.add_texts texts metadatas split_type w).2 in
  (calls w' = calls w
   ∨ ∃ docs metas,
       calls w' = calls w ++ [CallAdd docs metas
                                (generated_ids (length docs))]
       ∧ docs ≠ [] ∧ length docs ≤ length metas)
  ∧ stdout w' = stdout w
  ∧ ∀ l d, heap w !! l = Some d → heap w' !! l = Some d.
Proof.
  intros w'. unfold w'. clear w'.
  assert (∀ chunks cm,
    let w' := (ChromaStorage.add_texts chunks cm None w).2 in
    (calls w' = calls w
     ∨ ∃ docs metas,
         calls w' = calls w ++ [CallAdd docs metas
                                  (generated_ids (length docs))]
         ∧ docs ≠ [] ∧ length docs ≤ length metas)
    ∧ stdout w' = stdout w
    ∧ ∀ l d, heap w !! l = Some d → heap w' !! l = Some d) as Hstore.
  { intros chunks cm. destruct chunks as [|c chunks]; [simpl; eauto|].
    destruct (storage_add_texts_run (c :: chunks) cm None w)
      as (h & refs & Hrun & Hlen & _ & Hkeep & _); [done|].
    intros w'. unfold w'. rewrite Hrun.
    change (default (generated_ids (length (c :: chunks))) None)
      with (generated_ids (length (c :: chunks))).
    destruct (collection_add_world (c :: chunks) refs
                (generated_ids (length (c :: chunks)))
                (mkWorld h (coll w) (calls w) (stdout w)))
      as (Hh & Hc & Ho).
    rewrite Hh, Hc, Ho.
    split; [|done]. right. eexists _, _. split; [done|]. split; [done|].
    rewrite length_fmap, Hlen. lia. }
  unfold RAGEngine.add_texts. destruct texts as [|text texts]; [simpl; eauto|].
  unfold bind at 1, lift at 1.
  destruct (split_all split_type (text :: texts)) as [chunks|e];
    [|simpl; eauto].
  unfold bind at 1.
  destruct (truthy metadatas).
  - unfold lift.
    destruct (replicate_metadata split_type (default [] metadatas) 0
                (text :: texts) []) as [cm|e]; simpl; [|eauto].
    apply Hstore.
  - unfold ret. apply Hstore.
Qed.

(** X21. [TextSplitter.split_texts] returns the pieces the recursive
    splitter makes of each text, in the order of the texts, as plain-text
    chunks. *)
Theorem split_texts_concatenates (texts : list string)
    (sss : list (list string)) :
  Forall2 (λ text ss, recursive_split_text text = Returns ss) texts sss →
  split_texts texts = Returns (TextChunk <$> concat sss).
Proof.
  intros Hall. unfold split_texts.
  rewrite (extend_each_concat split_text texts
             ((λ ss : list string, TextChunk <$> ss) <$> sss) []).
  - cbn [app]. f_equal. clear Hall.
    induction sss as [|ss sss IH]; [done|].
    change (concat ((λ ss : list string, TextChunk <$> ss) <$> ss :: sss))
      with ((TextChunk <$> ss)
            ++ concat ((λ ss : list string, TextChunk <$> ss) <$> sss)).
    change (concat (ss :: sss)) with (ss ++ concat sss).
    by rewrite fmap_app, IH.
  - clear -Hall. induction Hall as [|text ss texts sss Hs _ IH];
      constructor; [|done].
    unfold split_text. by rewrite Hs.
Qed.
End AddTextsMore.

(** ** More on [RAGEngine.add_file] *)

Section AddFileMore.
Context {Coll : Type} `{!VectorStore Coll, !Splitters, !Runtime}.

(** Writing the two keys twice is writing them once. *)
Lemma file_metadata_twice (file_path file_type : string) (supplied : dict) :
  file_metadata file_path file_type
    (file_metadata file_path file_type supplied)
  = file_metadata file_path file_type supplied.
Proof.
  unfold file_metadata. apply map_eq. intros key.
  destruct (decide (key = "file_type")) as [->|Ht].
  { by rewrite !lookup_insert_eq. }
  rewrite (lookup_insert_ne _ "file_type" key) by done.
  rewrite (lookup_insert_ne (<["source":=_]> supplied) "file_type" key)
    by done.
  destruct (decide (key = "source")) as [->|Hs].
  { by rewrite !lookup_insert_eq. }
  rewrite !lookup_insert_ne by done. done.
Qed.

(** X18. Called without metadata, [RAGEngine.add_file] makes a new mapping
    and changes no mapping that exists; every mapping the collection
    receives has exactly the keys source and file_type. *)
Theorem add_file_without_metadata_makes_new_mapping (file_path : string)
    (file_type : option string) (w : World Coll) :
  let w' := (add_file file_path None file_type w).2 in
  (∀ l d, heap w !! l = Some d → heap w' !! l = Some d)
  ∧ ∃ new, calls w' = calls w ++ new
      ∧ ∀ docs metas ids, CallAdd docs metas ids ∈ new →
          length metas = length docs
          ∧ Forall (λ m, dom m = ({["source"; "file_type"]} : gset string))
              metas.
Proof.
  intros w'.
  destruct (add_file_world file_path None file_type w) as (Hh & Hc & _).
  fold w' in Hh, Hc. simpl in Hh, Hc. split.
  - intros l d Hl. rewrite Hh, lookup_insert_ne; [done|].
    intros <-. assert (heap w !! fresh (dom (heap w)) = None) as Hfresh.
    { apply not_elem_of_dom, is_fresh. }
    congruence.
  - eexists. split; [exact Hc|].
    intros docs metas ids Hin. unfold add_call in Hin.
    destruct (file_chunks file_path _) as [|c cs];
      [by apply elem_of_nil in Hin|].
    apply list_elem_of_singleton in Hin. injection Hin as -> -> _.
    split; [simpl; by rewrite length_replicate|].
    apply Forall_forall. intros m Hm.
    change (m ∈ replicate (length (c :: cs))
                  (file_metadata file_path
                     (detect_file_type file_path file_type) ∅)) in Hm.
    apply elem_of_replicate in Hm as [-> _].
    unfold file_metadata. rewrite !dom_insert_L, dom_empty_L. set_solver.
Qed.

(** X19. When the file cannot be read, [RAGEngine.add_file] raises the
    exception of the read, makes no call on the collection and prints
    nothing. *)
Theorem add_file_unreadable_raises (file_path : string)
    (metadata : option loc) (file_type : option string) (w : World Coll)
    (e : exn) :
  read_text file_path = Raises e →
  let run := add_file file_path metadata file_type w in
  run.1 = Raises e ∧ calls run.2 = calls w ∧ coll run.2 = coll w
  ∧ stdout run.2 = stdout w.
Proof.
  intros Hread run. unfold run. rewrite add_file_run.
  unfold bind at 1, lift at 1. by rewrite Hread.
Qed.

(** X20. Adding the same file twice with the same metadata object sends
    the collection the same [add] call twice: the same chunks, the same
    mapping on every chunk and the same ids. *)
Theorem add_file_twice_repeats_the_call (file_path : string) (l : loc)
    (file_type : option string) (w : World Coll) (text : string)
    (c : chunk) (cs : list chunk) :
  let ft := detect_file_type file_path file_type in
  let d := file_metadata file_path ft (heap w !!! l) in
  let add := CallAdd (c :: cs) (replicate (length (c :: cs)) d)
               (generated_ids (length (c :: cs))) in
  read_text file_path = Returns text →
  split_one (split_type_of ft) text = Returns (c :: cs) →
  let w1 := (add_file file_path (Some l) file_type w).2 in
  let w2 := (add_file file_path (Some l) file_type w1).2 in
  calls w2 = calls w ++ [add; add].
Proof.
  intros ft d add Hread Hsplit w1 w2.
  destruct (add_file_world file_path (Some l) file_type w) as (Hh1 & Hc1 & _).
  destruct (add_file_world file_path (Some l) file_type w1) as (_ & Hc2 & _).
  fold ft w1 in Hh1, Hc1. fold ft w2 in Hc2. simpl in Hh1, Hc1, Hc2.
  fold d in Hh1, Hc1.
  assert (file_chunks file_path ft = c :: cs) as Hchunks.
  { unfold file_chunks. by rewrite Hread, Hsplit. }
  rewrite Hchunks in Hc1, Hc2.
  rewrite Hh1, lookup_total_insert_eq in Hc2.
  unfold d in Hc2 at 1. rewrite file_metadata_twice in Hc2. fold d in Hc2.
  rewrite Hc2, Hc1. by rewrite <- app_assoc.
Qed.
End AddFileMore.

(** ** [TextSplitter.split_pdf] and [ChromaStorage.__init__] *)

Section PdfAndInit.
Context `{!DocumentTools, !Runtime}.

Lemma page_metadatas_length (n : nat) (source : string) :
  length (page_metadatas n source) = n.
Proof. unfold page_metadatas. by rewrite length_fmap, length_seq. Qed.

(** X22. [TextSplitter.split_pdf] hands [create_documents] the text of
    every page with one mapping per page, in page order: the mapping of
    the page at position [i] holds the page number [i + 1], counted from
    1, and the path as source, and nothing else. *)
Theorem split_pdf_numbers_pages_from_one (pdf_path : path_arg)
    (pages : list Document) :
  pdf_load (path_arg_str pdf_path) = Returns pages →
  ∃ ms,
    split_pdf pdf_path
    = recursive_create_documents (page_content <$> pages) (Some ms)
    ∧ length ms = length pages
    ∧ ∀ i, i < length pages →
        ∃ m, ms !! i = Some m
             ∧ m !! "page" = Some (AInt (Z.of_nat i + 1))
             ∧ m !! "source" = Some (AStr (path_arg_str pdf_path))
             ∧ dom m = ({["page"; "source"]} : gset string).
Proof.
  intros Hload. exists (page_metadatas (length pages) (path_arg_str pdf_path)).
  split; [|split].
  - unfold split_pdf. by rewrite Hload.
  - apply page_metadatas_length.
  - intros i Hi. eexists. split.
    { unfold page_metadatas.
      rewrite list_lookup_fmap, lookup_seq_lt by done. reflexivity. }
    split; [by rewrite lookup_insert_ne, lookup_insert_eq|].
    split; [by rewrite lookup_insert_eq|].
    rewrite !dom_insert_L, dom_empty_L. set_solver.
Qed.
End PdfAndInit.

Section InitFacts.
Context {Client Coll : Type} `{!VectorClient Client Coll}.

(** X23. [ChromaStorage.__init__] builds one client, the in-memory one
    exactly when the directory is [None] or empty, asks it for the
    collection by its name, and creates the collection, under that name,
    exactly when the lookup raised [NotFoundError]; any other exception of
    the lookup is raised to the caller. *)
Theorem init_creates_only_when_not_found (collection_name : string)
    (persist_directory : option string) :
  let run := ChromaStorageInit.__init__ collection_name persist_directory in
  let made := ChromaStorageInit.make_client persist_directory in
  (made.2 = [NewClient]
   ↔ persist_directory = None ∨ persist_directory = Some "")
  ∧ (∀ e, made.1 = Raises e → run = (Raises e, made.2))
  ∧ ∀ cl, made.1 = Returns cl →
      match get_collection cl collection_name with
      | Returns c =>
          run = (Returns (mkStorage cl c),
                 made.2 ++ [GetCollection collection_name])
      | Raises e =>
          if is_NotFoundError e
          then run.2 = made.2 ++ [GetCollection collection_name;
                                  CreateCollection collection_name]
               ∧ run.1 = mkStorage cl <$> create_collection cl collection_name
          else run = (Raises e, made.2 ++ [GetCollection collection_name])
      end.
Proof.
  intros run made. split; [|split].
  - unfold made, ChromaStorageInit.make_client.
    destruct persist_directory as [[|a rest]|]; simpl; split;
      try done; eauto; intros [|]; done.
  - intros e He. unfold run, ChromaStorageInit.__init__. fold made.
    destruct made as [[cl|e'] log]; simpl in *; congruence.
  - intros cl Hcl. unfold run, ChromaStorageInit.__init__. fold made.
    destruct made as [[cl'|e'] log]; simpl in *; [|done].
    injection Hcl as ->. unfold ChromaStorageInit.get_or_create.
    destruct (get_collection cl collection_name) as [c|e]; [done|].
    destruct (is_NotFoundError e); [|done].
    by destruct (create_collection cl collection_name).
Qed.
End InitFacts.

(** ** The further statements on the sample collaborators *)

Section MoreRuns.
Import Sample SampleTools.

Lemma storage_add_texts_without_metadata_witness :
  [TextChunk "a"; TextChunk "b"] ≠ []
  ∧ calls (ChromaStorage.add_texts [TextChunk "a"; TextChunk "b"] None
             (Some ["k1"; "k2"]) empty_world).2
    = [CallAdd [TextChunk "a"; TextChunk "b"] [∅; ∅] ["k1"; "k2"]].
Proof.
  assert ([TextChunk "a"; TextChunk "b"] ≠ []) as Hne by done.
  split; [done|].
  exact (storage_add_texts_without_metadata [TextChunk "a"; TextChunk "b"]
           (Some ["k1"; "k2"]) empty_world Hne).
Defined.

Lemma storage_add_texts_pads_short_metadata_witness :
  let texts := [TextChunk "a"; TextChunk "b"; TextChunk "c"] in
  (length [1] < length texts)
  ∧ Forall (λ l, is_Some (heap empty_world !! l)) [1]
  ∧ calls (ChromaStorage.add_texts texts (Some [1]) None empty_world).2
    = [CallAdd texts [<["lang" := AStr "fr"]> ∅; ∅; ∅]
         ["doc0"; "doc1"; "doc2"]].
Proof.
  intros texts.
  assert (length [1] < length texts) as Hlt by (simpl; lia).
  assert (Forall (λ l, is_Some (heap empty_world !! l)) [1]) as Hrefs
    by (repeat constructor; by eexists).
  split; [done|]. split; [done|].
  exact (storage_add_texts_pads_short_metadata texts [1] None empty_world
           Hlt Hrefs).
Defined.

Lemma storage_add_texts_keeps_long_metadata_witness :
  [TextChunk "a"] ≠ [] ∧ (length [TextChunk "a"] ≤ length [1; 1])
  ∧ calls (ChromaStorage.add_texts [TextChunk "a"] (Some [1; 1]) None
             empty_world).2
    = [CallAdd [TextChunk "a"]
         [<["lang" := AStr "fr"]> ∅; <["lang" := AStr "fr"]> ∅] ["doc0"]].
Proof.
  assert ([TextChunk "a"] ≠ []) as Hne by done.
  assert (length [TextChunk "a"] ≤ length [1; 1]) as Hle by (simpl; lia).
  split; [done|]. split; [done|].
  exact (proj1 (storage_add_texts_keeps_long_metadata [TextChunk "a"] [1; 1]
                  None empty_world Hne Hle)).
Defined.

Lemma storage_add_texts_one_call_witness :
  [TextChunk "a"] ≠ []
  ∧ ∃ metas,
      calls (ChromaStorage.add_texts [TextChunk "a"] (Some [0; 1])
               (Some ["x"; "y"; "z"]) empty_world).2
      = [CallAdd [TextChunk "a"] metas ["x"; "y"; "z"]]
      ∧ length metas = 2.
Proof.
  assert ([TextChunk "a"] ≠ []) as Hne by done.
  split; [done|].
  exact (proj1 (storage_add_texts_one_call [TextChunk "a"] (Some [0; 1])
                  (Some ["x"; "y"; "z"]) empty_world Hne)).
Defined.


Lemma query_short_row_loses_all_matches_witness :
  let w : World unit := world0 tt in
  @coll_query _ short_store (coll w) ["what"] 5%Z None None
  = Returns (Some short_answer)
  ∧ first_row (documents short_answer) = Some ["alpha"; "beta"]
  ∧ (length [(∅ : dict)] < length ["alpha"; "beta"])
  ∧ (@ChromaStorage.query _ short_store "what" 5%Z None None w).1
    = Returns [].
Proof.
  intros w. split; [reflexivity|]. split; [reflexivity|].
  assert (length [(∅ : dict)] < length ["alpha"; "beta"]) as Hlt
    by (simpl; lia).
  split; [done|].
  exact (f_equal fst
           (@query_short_row_loses_all_matches _ short_store "what" 5%Z
              None None w short_answer ["alpha"; "beta"] eq_refl eq_refl
              (or_introl (ex_intro _ [∅] (conj eq_refl Hlt))))).
Defined.

Lemma query_returns_every_match_witness :
  ∃ rs, (ChromaStorage.query "what" 5%Z None None stocked_world).1
        = Returns rs
        ∧ length rs = 2.
Proof.
  assert (coll_query (coll stocked_world) ["what"] 5%Z None None
          = Returns (Some (mkQueryResult (Some [["alpha"; "beta"]])
                             (Some [[<["lang" := AStr "en"]> ∅; ∅]])
                             (Some [[S754_zero false; S754_zero false]]))))
    as Hanswer by reflexivity.
  destruct (query_returns_every_match "what" 5%Z None None stocked_world
              _ ["alpha"; "beta"] Hanswer eq_refl) as (rs & Hrun & Hlen).
  - intros mrow [= <-]. simpl. lia.
  - intros drow [= <-]. simpl. lia.
  - exists rs. split; [by rewrite Hrun|exact Hlen].
Defined.

Lemma query_documents_only_witness :
  let w : World unit := world0 tt in
  ∃ r0 r1,
    (@ChromaStorage.query _ bare_store "what" 5%Z None None w).1
    = Returns [r0; r1]
    ∧ r0 !! "text" = Some (VAtom (AStr "alpha"))
    ∧ r1 !! "metadata" = Some (VDict ∅)
    ∧ r1 !! "distance" = Some (VAtom ANone).
Proof.
  intros w. eexists _, _. split.
  - exact (@query_documents_only _ bare_store "what" 5%Z None None w
             (mkQueryResult (Some [["alpha"; "beta"]]) None None)
             ["alpha"; "beta"] eq_refl eq_refl eq_refl eq_refl).
  - repeat split; reflexivity.
Defined.

Lemma add_texts_without_metadata_stores_empty_witness :
  let css := [[TextChunk "a"; TextChunk "b"]] in
  ["a b"] ≠ []
  ∧ Forall2 (λ text cs, split_one "text" text = Returns cs) ["a b"] css
  ∧ concat css ≠ []
  ∧ calls (RAGEngine.add_texts ["a b"] (Some []) "text" empty_world).2
    = [CallAdd [TextChunk "a"; TextChunk "b"] [∅; ∅] ["doc0"; "doc1"]].
Proof.
  intros css.
  assert (["a b"] ≠ []) as Hne by done.
  assert (Forall2 (λ text cs, split_one "text" text = Returns cs)
            ["a b"] css) as Hall by (repeat constructor).
  assert (concat css ≠ []) as Hsome by done.
  split; [done|]. split; [done|]. split; [done|].
  exact (add_texts_without_metadata_stores_empty ["a b"] (Some []) "text"
           css empty_world (or_intror eq_refl) Hne Hall Hsome).
Defined.

Lemma add_texts_missing_metadata_raises_witness :
  let css := [[TextChunk "a"]; [TextChunk "b"]] in
  [0] ≠ []
  ∧ Forall2 (λ text cs, split_one "text" text = Returns cs) ["a"; "b"] css
  ∧ (css !! 1 = Some [TextChunk "b"] ∧ length [0] ≤ 1)
  ∧ RAGEngine.add_texts ["a"; "b"] (Some [0]) "text" empty_world
    = (Raises (IndexError "list index out of range"), empty_world).
Proof.
  intros css.
  assert ([0] ≠ []) as Hms by done.
  assert (Forall2 (λ text cs, split_one "text" text = Returns cs)
            ["a"; "b"] css) as Hall by (repeat constructor).
  assert (length [0] ≤ 1) as Hle by (simpl; lia).
  split; [done|]. split; [done|]. split; [done|].
  apply (add_texts_missing_metadata_raises ["a"; "b"] [0] "text" css
           empty_world Hms Hall).
  exists 1, [TextChunk "b"]. done.
Defined.

Lemma add_texts_chunkless_texts_need_no_metadata_witness :
  let css := [[TextChunk "a"]; []] in
  ["a"; ""] ≠ [] ∧ [1] ≠ []
  ∧ Forall2 (λ text cs, split_one "text" text = Returns cs) ["a"; ""] css
  ∧ RAGEngine.add_texts ["a"; ""] (Some [1]) "text" empty_world
    = ChromaStorage.add_texts [TextChunk "a"] (Some [1]) None empty_world.
Proof.
  intros css.
  assert (["a"; ""] ≠ []) as Hne by done.
  assert ([1] ≠ []) as Hms by done.
  assert (Forall2 (λ text cs, split_one "text" text = Returns cs)
            ["a"; ""] css) as Hall by (repeat constructor).
  split; [done|]. split; [done|]. split; [done|].
  refine (proj1 (add_texts_chunkless_texts_need_no_metadata ["a"; ""] [1]
                   "text" css empty_world Hne Hms Hall _)).
  intros [|[|j]] cs Hj Hcs; simpl in Hj; simplify_eq; simpl; lia.
Defined.

Lemma add_texts_splitter_failure_stores_nothing_witness :
  ("markdown" ∈ split_types)
  ∧ Forall (λ t, ∃ cs, @split_one strict_splitters "markdown" t = Returns cs)
      ["intro"]
  ∧ @split_one strict_splitters "markdown" "" = Raises (ValueError "empty text")
  ∧ @RAGEngine.add_texts _ list_store strict_splitters
      (["intro"] ++ "" :: ["outro"]) (Some [0; 0; 0]) "markdown" empty_world
    = (Raises (ValueError "empty text"), empty_world).
Proof.
  assert ("markdown" ∈ split_types) as Htag.
  { unfold split_types. rewrite !elem_of_cons. by right; left. }
  assert (Forall (λ t, ∃ cs, @split_one strict_splitters "markdown" t
                             = Returns cs) ["intro"]) as Hpre
    by (repeat constructor; by eexists).
  split; [done|]. split; [done|]. split; [reflexivity|].
  exact (@add_texts_splitter_failure_stores_nothing _ list_store
           strict_splitters ["intro"] ["outro"] "" (Some [0; 0; 0])
           "markdown" _ empty_world Htag Hpre eq_refl).
Defined.

Lemma add_file_unreadable_raises_witness :
  read_text "gone.txt" = Raises (LibraryError "FileNotFoundError" "gone.txt")
  ∧ (add_file "gone.txt" (Some 0) None empty_world).1
    = Raises (LibraryError "FileNotFoundError" "gone.txt")
  ∧ calls (add_file "gone.txt" (Some 0) None empty_world).2 = [].
Proof.
  assert (read_text "gone.txt"
          = Raises (LibraryError "FileNotFoundError" "gone.txt")) as Hread
    by reflexivity.
  split; [done|].
  destruct (add_file_unreadable_raises "gone.txt" (Some 0) None empty_world
              _ Hread) as (Hraise & Hcalls & _).
  split; [exact Hraise|exact Hcalls].
Defined.

Lemma add_file_twice_repeats_the_call_witness :
  read_text "notes.txt" = Returns "alpha beta"
  ∧ split_one (split_type_of (detect_file_type "notes.txt" None)) "alpha beta"
    = Returns [TextChunk "alpha"; TextChunk "beta"]
  ∧ ∃ add,
      calls (add_file "notes.txt" (Some 0) None
               (add_file "notes.txt" (Some 0) None empty_world).2).2
      = [add; add].
Proof.
  assert (read_text "notes.txt" = Returns "alpha beta") as Hread
    by reflexivity.
  assert (split_one (split_type_of (detect_file_type "notes.txt" None))
            "alpha beta"
          = Returns [TextChunk "alpha"; TextChunk "beta"]) as Hsplit
    by reflexivity.
  split; [done|]. split; [done|].
  eexists.
  exact (add_file_twice_repeats_the_call "notes.txt" 0 None empty_world
           "alpha beta" (TextChunk "alpha") [TextChunk "beta"]
           Hread Hsplit).
Defined.

Lemma split_texts_concatenates_witness :
  Forall2 (λ text ss, recursive_split_text text = Returns ss)
    ["a b"; "c"] [["a"; "b"]; ["c"]]
  ∧ split_texts ["a b"; "c"]
    = Returns [TextChunk "a"; TextChunk "b"; TextChunk "c"].
Proof.
  assert (Forall2 (λ text ss, recursive_split_text text = Returns ss)
            ["a b"; "c"] [["a"; "b"]; ["c"]]) as Hall
    by (repeat constructor).
  split; [done|].
  exact (split_texts_concatenates ["a b"; "c"] [["a"; "b"]; ["c"]] Hall).
Defined.

Lemma split_pdf_numbers_pages_from_one_witness :
  pdf_load (path_arg_str (StrArg "book.pdf"))
  = Returns [mkDocument "page one" ∅; mkDocument "page two" ∅]
  ∧ ∃ ms,
      split_pdf (StrArg "book.pdf")
      = recursive_create_documents ["page one"; "page two"] (Some ms)
      ∧ length ms = 2.
Proof.
  assert (pdf_load (path_arg_str (StrArg "book.pdf"))
          = Returns [mkDocument "page one" ∅; mkDocument "page two" ∅])
    as Hload by reflexivity.
  split; [done|].
  destruct (split_pdf_numbers_pages_from_one (StrArg "book.pdf") _ Hload)
    as (ms & Hrun & Hlen & _).
  exists ms. split; [exact Hrun|exact Hlen].
Defined.
End MoreRuns.
